(** * The POST /mcp handler of src/http-server.ts

    A shallow embedding of the request handler of the Trello MCP HTTP
    server: JavaScript values as an inductive type, the asynchronous
    handler as a small monad that records elapsed time and the calls made
    on the Trello client, and the Express response object as explicit
    state. *)

From Stdlib Require Import ZArith NArith List String Ascii Bool Lia.
From Stdlib Require Import Numbers.DecimalString.
Import ListNotations.
Open Scope list_scope.
Open Scope string_scope.
Set Warnings "-register-all".

(** ** The JavaScript runtime *)

(** The two built-ins that the handler calls and that are taken as they
    come from the runtime: [String.prototype.toLowerCase], on strings given
    as the bytes of their UTF-8 text, and the text of a number
    ([Number.prototype.toString], also used by [JSON.stringify]).  The
    theorems below are stated for every runtime; only the closed examples
    run on [ascii_runtime]. *)
Class Runtime : Type := {
  toLowerCase : string -> string;
  toLowerCase_empty : toLowerCase "" = "";
  Number_toString : Z -> string
}.

(** ** JavaScript values *)

Module Js.

(** The values that travel through the handler: what [express.json()]
    parses from a request body, plus [undefined], which property access
    produces for an absent key.  Numbers are restricted to integers, and
    strings are the bytes of their UTF-8 text. *)
Inductive value : Type :=
| VUndefined
| VNull
| VBool (b : bool)
| VNum (n : Z)
| VStr (s : string)
| VArr (items : list value)
| VObj (props : list (string * value)).

(** First binding of key [k] in a property list. *)
Fixpoint lookup (k : string) (props : list (string * value)) : value :=
  match props with
  | [] => VUndefined
  | (k', v) :: rest => if String.eqb k k' then v else lookup k rest
  end.

(** [v.k] for a value [v] that is neither [undefined] nor [null] and a key
    that is not a built-in property of strings or arrays. *)
Definition get (v : value) (k : string) : value :=
  match v with
  | VObj props => lookup k props
  | _ => VUndefined
  end.

(** ToBoolean. *)
Definition truthy (v : value) : bool :=
  match v with
  | VUndefined | VNull => false
  | VBool b => b
  | VNum n => negb (Z.eqb n 0)
  | VStr s => negb (String.eqb s "")
  | VArr _ | VObj _ => true
  end.

(** [a || b]. *)
Definition or_else (a b : value) : value := if truthy a then a else b.

(** The decimal digits of an integer: the text of a number that is a safe
    integer (of magnitude at most 2^53). *)
Definition decimal (n : Z) : string := NilZero.string_of_int (Z.to_int n).

Fixpoint join (sep : string) (parts : list string) : string :=
  match parts with
  | [] => ""
  | [p] => p
  | p :: rest => p ++ sep ++ join sep rest
  end.

(** All the strings of a list, when none is missing. *)
Fixpoint all_some (l : list (option string)) : option (list string) :=
  match l with
  | [] => Some []
  | None :: _ => None
  | Some s :: rest =>
      match all_some rest with
      | Some ss => Some (s :: ss)
      | None => None
      end
  end.

(** Whether an object parsed from JSON has an own property [k]. *)
Definition has_key (k : string) (props : list (string * value)) : bool :=
  existsb (fun kv => String.eqb k (fst kv)) props.

Section Conversions.

Context {rt : Runtime}.

(** ToString, as applied by a template literal; [None] where it throws a
    type error.  An object parsed from JSON converts to [[object Object]]
    through [Object.prototype.toString], unless it has an own [toString]
    property: that one is not callable, and neither [valueOf] gives a
    primitive.  An array converts through [join], which converts its
    elements. *)
Fixpoint to_string (v : value) : option string :=
  match v with
  | VUndefined => Some "undefined"
  | VNull => Some "null"
  | VBool true => Some "true"
  | VBool false => Some "false"
  | VNum n => Some (Number_toString n)
  | VStr s => Some s
  | VArr items =>
      option_map (join ",")
        (all_some (map (fun x => match x with
                                 | VUndefined | VNull => Some ""
                                 | _ => to_string x
                                 end) items))
  | VObj props => if has_key "toString" props then None else Some "[object Object]"
  end.

End Conversions.

(** *** String methods *)

Definition lower_char (c : ascii) : ascii :=
  let n := nat_of_ascii c in
  if andb (Nat.leb 65 n) (Nat.leb n 90) then ascii_of_nat (n + 32) else c.

(** Lower case of the ASCII letters, every other byte left as it is: what
    [toLowerCase] gives on ASCII text. *)
Fixpoint ascii_toLowerCase (s : string) : string :=
  match s with
  | EmptyString => EmptyString
  | String c rest => String (lower_char c) (ascii_toLowerCase rest)
  end.

(** [s.includes(sub)]. *)
Fixpoint includes (s sub : string) : bool :=
  if prefix sub s then true
  else match s with
       | EmptyString => false
       | String _ rest => includes rest sub
       end.

(** *** JSON.stringify *)

Definition dquote : ascii := "034"%char.
Definition backslash : ascii := "092"%char.

Definition hex_digit (n : nat) : ascii :=
  if Nat.ltb n 10 then ascii_of_nat (48 + n) else ascii_of_nat (87 + n).

Definition escape_char (c : ascii) : string :=
  let n := nat_of_ascii c in
  if Ascii.eqb c dquote then String backslash (String dquote "")
  else if Ascii.eqb c backslash then String backslash (String backslash "")
  else if Nat.eqb n 8 then String backslash "b"
  else if Nat.eqb n 9 then String backslash "t"
  else if Nat.eqb n 10 then String backslash "n"
  else if Nat.eqb n 12 then String backslash "f"
  else if Nat.eqb n 13 then String backslash "r"
  else if Nat.ltb n 32 then
    String backslash
      ("u00" ++ String (hex_digit (n / 16)) (String (hex_digit (n mod 16)) ""))
  else String c "".

Fixpoint escape (s : string) : string :=
  match s with
  | EmptyString => EmptyString
  | String c rest => escape_char c ++ escape rest
  end.

Definition quote (s : string) : string :=
  String dquote (escape s ++ String dquote "").

Section Serializer.

Context {rt : Runtime}.

(** Serialization of a value; [None] where [JSON.stringify] gives
    [undefined].  An [undefined] array element is written [null] and an
    [undefined] property is left out. *)
Fixpoint serialize (v : value) : option string :=
  match v with
  | VUndefined => None
  | VNull => Some "null"
  | VBool true => Some "true"
  | VBool false => Some "false"
  | VNum n => Some (Number_toString n)
  | VStr s => Some (quote s)
  | VArr items =>
      Some ("[" ++ join "," (map (fun x => match serialize x with
                                          | Some t => t
                                          | None => "null"
                                          end) items) ++ "]")
  | VObj props =>
      let member :=
        fix member (ps : list (string * value)) : list string :=
          match ps with
          | [] => []
          | (k, x) :: rest =>
              match serialize x with
              | Some t => (quote k ++ ":" ++ t) :: member rest
              | None => member rest
              end
          end in
      Some ("{" ++ join "," (member props) ++ "}")
  end.

(** [JSON.stringify(v)] as a JavaScript value. *)
Definition JSON_stringify (v : value) : value :=
  match serialize v with
  | Some t => VStr t
  | None => VUndefined
  end.

End Serializer.

End Js.
Import Js.

(** A runtime for the examples: ASCII lower case and decimal digits, which
    is what every runtime gives on ASCII text and on safe integers. *)
#[global] Instance ascii_runtime : Runtime := {|
  toLowerCase := ascii_toLowerCase;
  toLowerCase_empty := eq_refl;
  Number_toString := decimal
|}.

(** ** The Trello client, as the handler sees it *)

(** A board as returned by the client: the fields the handler reads. *)
Module Board.
Record t : Type := mk {
  id : string;
  name : string;
  desc : string;
  closed : bool;
  idOrganization : value;
  url : string;
  shortUrl : string
}.

(** The board object as a value, for the paths that forward it as is. *)
Definition to_value (b : t) : value :=
  VObj [("id", VStr (id b)); ("name", VStr (name b)); ("desc", VStr (desc b));
        ("closed", VBool (closed b)); ("idOrganization", idOrganization b);
        ("url", VStr (url b)); ("shortUrl", VStr (shortUrl b))].
End Board.

(** A list of a board: the fields the handler reads. *)
Module TList.
Record t : Type := mk {
  id : string;
  name : string;
  closed : bool;
  idBoard : string
}.

Definition to_value (l : t) : value :=
  VObj [("id", VStr (id l)); ("name", VStr (name l));
        ("closed", VBool (closed l)); ("idBoard", VStr (idBoard l))].
End TList.

(** What a [throw] or a rejected promise carries. *)
Inductive exn : Type :=
| Error (message : string)
| TypeError (message : string)
| Thrown (v : value).

(** [error instanceof Error ? error.message : fallback]. *)
Definition message_or (e : exn) (fallback : string) : string :=
  match e with
  | Error m | TypeError m => m
  | Thrown _ => fallback
  end.

(** How a promise returned by the client settles, and how many
    milliseconds after the call. *)
Inductive settle (A : Type) : Type :=
| Resolves (after : N) (a : A)
| Rejects (after : N) (e : exn)
| Pending.
Arguments Resolves {A} after a.
Arguments Rejects {A} after e.
Arguments Pending {A}.

(** The client object [trelloClient] during one request.  The methods whose
    results the handler inspects are typed; [invoke] stands for the methods
    whose result the handler forwards untouched, by method name. *)
Record TrelloClient : Type := {
  activeBoardId : value;
  listBoards : settle (list Board.t);
  getBoardById : value -> settle Board.t;
  getLists : value -> settle (list TList.t);
  getCardsByList : value -> value -> settle value;
  addCard : value -> value -> settle value;
  invoke : string -> list value -> settle value
}.

(** A call made on the client: method name and actual arguments. *)
Record Call : Type := mkCall { callee : string; args : list value }.

(** ** The handler's effects *)

Module Async.

(** How the body of the [try] block ends. *)
Inductive outcome (A : Type) : Type :=
| Done (a : A)
| Throw (e : exn)
| Respond (status : nat) (body : value)
| Hang.
Arguments Done {A} a.
Arguments Throw {A} e.
Arguments Respond {A} status body.
Arguments Hang {A}.

(** A run of asynchronous code: the time it took, the client calls it
    made, in order, and how it ended.  [Respond] is an early
    [return res.status(s).json(b)]; [Hang] is an [await] on a promise that
    never settles. *)
Record run (A : Type) : Type := mkRun {
  elapsed : N;
  calls : list Call;
  out : outcome A
}.
Arguments mkRun {A} elapsed calls out.
Arguments elapsed {A} r.
Arguments calls {A} r.
Arguments out {A} r.

Definition ret {A} (a : A) : run A := mkRun 0 [] (Done a).
Definition throw {A} (e : exn) : run A := mkRun 0 [] (Throw e).
Definition respond {A} (status : nat) (body : value) : run A :=
  mkRun 0 [] (Respond status body).

Definition after {A B} (m : run A) (r : run B) : run B :=
  mkRun (elapsed m + elapsed r) (calls m ++ calls r)%list (out r).

Definition bind {A B} (m : run A) (k : A -> run B) : run B :=
  match out m with
  | Done a => after m (k a)
  | Throw e => mkRun (elapsed m) (calls m) (Throw e)
  | Respond s b => mkRun (elapsed m) (calls m) (Respond s b)
  | Hang => mkRun (elapsed m) (calls m) Hang
  end.

(** [try { m } catch (e) { h e }]. *)
Definition try_catch {A} (m : run A) (h : exn -> run A) : run A :=
  match out m with
  | Throw e => after m (h e)
  | _ => m
  end.

(** [await p] for the promise [p] that the call [c] returned. *)
Definition await {A} (c : Call) (p : settle A) : run A :=
  match p with
  | Resolves t a => mkRun t [c] (Done a)
  | Rejects t e => mkRun t [c] (Throw e)
  | Pending => mkRun 0 [c] Hang
  end.

(** [await Promise.race([p, timeoutPromise])], where [timeoutPromise]
    rejects with [e] after [budget] milliseconds; [p] wins when it settles
    strictly earlier. *)
Definition await_race {A} (c : Call) (p : settle A) (budget : N) (e : exn)
  : run A :=
  match p with
  | Resolves t a =>
      if (t <? budget)%N then mkRun t [c] (Done a) else mkRun budget [c] (Throw e)
  | Rejects t e' =>
      if (t <? budget)%N then mkRun t [c] (Throw e') else mkRun budget [c] (Throw e)
  | Pending => mkRun budget [c] (Throw e)
  end.

End Async.
Import Async.

Declare Scope async_scope.
Delimit Scope async_scope with async.
Notation "x <- m ;; k" := (bind m (fun x => k))
  (at level 61, m at next level, right associativity) : async_scope.
Open Scope async_scope.

(** [switch (v) { case k: ... default: ... }] over string-literal cases,
    every case ending in [break] or [return]. *)
Fixpoint switch_cases {A} (s : string) (cases : list (string * A)) (default : A)
  : A :=
  match cases with
  | [] => default
  | (k, body) :: rest =>
      if String.eqb s k then body else switch_cases s rest default
  end.

Definition switch {A} (v : value) (cases : list (string * A)) (default : A) : A :=
  match v with
  | VStr s => switch_cases s cases default
  | _ => default
  end.

(** ** The tools of [tools/call] *)

Definition obj_empty : value := VObj [].

Definition cannot_convert : exn :=
  TypeError "Cannot convert object to primitive value".

Section Handler.

Context {rt : Runtime}.

(** A template literal [`prefix${v}`]: the text, or the type error of the
    conversion of [v]. *)
Definition template (prefix : string) (v : value) : run string :=
  match to_string v with
  | Some text => ret (prefix ++ text)
  | None => throw cannot_convert
  end.

(** [recv.toLowerCase()] where [recv] came from the request: a type error
    unless it is a string. *)
Definition call_toLowerCase (expr : string) (recv : value) : run string :=
  match recv with
  | VStr s => ret (toLowerCase s)
  | VUndefined =>
      throw (TypeError "Cannot read properties of undefined (reading 'toLowerCase')")
  | VNull =>
      throw (TypeError "Cannot read properties of null (reading 'toLowerCase')")
  | _ => throw (TypeError (expr ++ ".toLowerCase is not a function"))
  end.

(** The filter predicate of [search]. *)
Definition board_matches (query : string) (board : Board.t) : bool :=
  includes (toLowerCase (Board.name board)) query
  || includes (toLowerCase (Board.desc board)) query.

Definition search_entry (board : Board.t) : value :=
  VObj [("id", VStr (Board.id board));
        ("title", VStr (Board.name board));
        ("url", VStr (Board.url board))].

(** [case 'search']. *)
Definition tool_search (c : TrelloClient) (toolArguments : value) : run value :=
  allBoards <- await (mkCall "listBoards" []) (listBoards c) ;;
  query <- call_toLowerCase "toolArguments.query" (get toolArguments "query") ;;
  let searchResults := map search_entry (filter (board_matches query) allBoards) in
  ret (JSON_stringify (VObj [("results", VArr searchResults)])).

Definition fetch_board_result (board : Board.t) : value :=
  VObj [("id", VStr (Board.id board));
        ("title", VStr (Board.name board));
        ("text", or_else (VStr (Board.desc board))
                         (VStr ("Tableau Trello: " ++ Board.name board)));
        ("url", VStr (Board.url board));
        ("metadata", VObj [("type", VStr "board");
                           ("closed", VBool (Board.closed board));
                           ("organization", Board.idOrganization board)])].

(** The envelope of a list; [url] is the text of
    [`https://trello.com/b/${id}`]. *)
Definition fetch_list_result (url : string) (list : TList.t) : value :=
  VObj [("id", VStr (TList.id list));
        ("title", VStr (TList.name list));
        ("text", VStr ("Liste Trello: " ++ TList.name list));
        ("url", VStr url);
        ("metadata", VObj [("type", VStr "list");
                           ("closed", VBool (TList.closed list));
                           ("boardId", VStr (TList.idBoard list))])].

(** [throw new Error(`No resource found with ID ${id}`)]: the template
    literal is evaluated first, and may throw itself. *)
Definition throw_no_resource (id : value) : run value :=
  message <- template "No resource found with ID " id ;;
  throw (Error message).

(** [case 'fetch']: the board first, then the first list of the board. *)
Definition tool_fetch (c : TrelloClient) (toolArguments : value) : run value :=
  let id := get toolArguments "id" in
  try_catch
    (board <- await (mkCall "getBoardById" [id]) (getBoardById c id) ;;
     ret (JSON_stringify (fetch_board_result board)))
    (fun _ =>
       try_catch
         (lists <- await (mkCall "getLists" [id]) (getLists c id) ;;
          match lists with
          | [] => throw_no_resource id
          | list :: _ =>
              url <- template "https://trello.com/b/" id ;;
              ret (JSON_stringify (fetch_list_result url list))
          end)
         (fun _ => throw_no_resource id)).

Definition tool_timeout : N := 2000.

Definition recent_entry (board : Board.t) : value :=
  VObj [("id", VStr (Board.id board));
        ("name", VStr (Board.name board));
        ("url", VStr (Board.shortUrl board))].

Definition recentBoards (boards : list Board.t) : list value :=
  map recent_entry (firstn 5 (filter (fun board => negb (Board.closed board)) boards)).

Definition boards_failure (error : exn) : value :=
  VObj [("error", VStr "Failed to fetch boards");
        ("message", VStr (message_or error "Unknown error"));
        ("boards", VArr [])].

(** [case 'list_boards'] of [tools/call]: the listing raced against a
    two-second timer, and a failure of the race turned into a result. *)
Definition tool_list_boards (c : TrelloClient) : run value :=
  try_catch
    (boards <- await_race (mkCall "listBoards" []) (listBoards c)
                          tool_timeout (Error "Trello API timeout") ;;
     ret (JSON_stringify (VArr (recentBoards boards))))
    (fun error => ret (JSON_stringify (boards_failure error))).

Definition tool_get_cards_by_list_id (c : TrelloClient) (toolArguments : value)
  : run value :=
  let boardId := get toolArguments "boardId" in
  let listId := get toolArguments "listId" in
  cards <- await (mkCall "getCardsByList" [boardId; listId])
                 (getCardsByList c boardId listId) ;;
  ret (JSON_stringify cards).

Definition lists_value (lists : list TList.t) : value :=
  VArr (map TList.to_value lists).

Definition boards_value (boards : list Board.t) : value :=
  VArr (map Board.to_value boards).

Definition tool_get_lists (c : TrelloClient) (toolArguments : value) : run value :=
  let boardId := get toolArguments "boardId" in
  lists <- await (mkCall "getLists" [boardId]) (getLists c boardId) ;;
  ret (JSON_stringify (lists_value lists)).

(** The object literal [{listId, name, description: toolArguments.desc}]
    that [create_card] hands to [addCard]. *)
Definition card_of (toolArguments : value) : value :=
  VObj [("listId", get toolArguments "listId");
        ("name", get toolArguments "name");
        ("description", get toolArguments "desc")].

Definition tool_create_card (c : TrelloClient) (toolArguments : value) : run value :=
  let boardId := get toolArguments "boardId" in
  let card := card_of toolArguments in
  newCard <- await (mkCall "addCard" [boardId; card]) (addCard c boardId card) ;;
  ret (JSON_stringify newCard).

(** The names of the inner [switch (toolName)]. *)
Definition tool_names : list string :=
  ["search"; "fetch"; "list_boards"; "get_cards_by_list_id"; "get_lists";
   "create_card"].

(** [case 'tools/call'], with its [console.log(`Tool: ${toolName}`)],
    whose template literal is evaluated before the switch. *)
Definition tools_call (c : TrelloClient) (params : value) : run value :=
  let toolName := get params "name" in
  let toolArguments := or_else (get params "arguments") obj_empty in
  _ <- template "Tool: " toolName ;;
  switch toolName
    [("search", tool_search c toolArguments);
     ("fetch", tool_fetch c toolArguments);
     ("list_boards", tool_list_boards c);
     ("get_cards_by_list_id", tool_get_cards_by_list_id c toolArguments);
     ("get_lists", tool_get_lists c toolArguments);
     ("create_card", tool_create_card c toolArguments)]
    (message <- template "Unknown tool: " toolName ;; throw (Error message)).

(** ** The method switch *)

Definition initialize_result : value :=
  VObj [("protocolVersion", VStr "2024-11-05");
        ("capabilities", VObj [("tools", obj_empty)]);
        ("serverInfo", VObj [("name", VStr "mcp-server-trello");
                             ("version", VStr "1.3.1")])].

(** A tool descriptor of [tools/list]: its name and the properties and
    required keys of its input schema, every property of type string.  The
    prose of the descriptors (description, examples) is left out. *)
Definition descriptor (name : string) (props required : list string) : value :=
  VObj [("annotations", VNull);
        ("name", VStr name);
        ("inputSchema",
         VObj [("type", VStr "object");
               ("properties",
                VObj (map (fun p => (p, VObj [("type", VStr "string")])) props));
               ("required", VArr (map VStr required));
               ("additionalProperties", VBool false)])].

Definition tools_list_result : value :=
  VObj [("tools",
         VArr [descriptor "search" ["query"] ["query"];
               descriptor "fetch" ["id"] ["id"];
               descriptor "list_boards" [] [];
               descriptor "get_cards_by_list_id" ["listId"] ["listId"];
               descriptor "get_lists" ["boardId"] ["boardId"];
               descriptor "create_card" ["listId"; "name"; "desc"]
                          ["listId"; "name"]])].

(** [result = await trelloClient.m(args)] for a method whose result is
    forwarded as it is. *)
Definition forward (c : TrelloClient) (m : string) (actuals : list value)
  : run value :=
  await (mkCall m actuals) (invoke c m actuals).

(** The direct methods of the outer [switch (method)], in source order. *)
Definition legacy_cases (c : TrelloClient) (params : value)
  : list (string * run value) :=
  let p := get params in
  [("get_cards_by_list_id",
    await (mkCall "getCardsByList" [p "boardId"; p "listId"])
          (getCardsByList c (p "boardId") (p "listId")));
   ("get_lists",
    lists <- await (mkCall "getLists" [p "boardId"]) (getLists c (p "boardId")) ;;
    ret (lists_value lists));
   ("get_recent_activity", forward c "getRecentActivity" [p "boardId"; p "limit"]);
   ("add_card_to_list",
    await (mkCall "addCard" [p "boardId"; params]) (addCard c (p "boardId") params));
   ("update_card_details", forward c "updateCard" [p "boardId"; params]);
   ("archive_card", forward c "archiveCard" [p "boardId"; p "cardId"]);
   ("move_card", forward c "moveCard" [p "boardId"; p "cardId"; p "listId"]);
   ("add_list_to_board", forward c "addList" [p "boardId"; p "name"]);
   ("archive_list", forward c "archiveList" [p "boardId"; p "listId"]);
   ("get_my_cards", forward c "getMyCards" []);
   ("attach_image_to_card",
    forward c "attachImageToCard"
            [p "boardId"; p "cardId"; p "imageUrl"; p "name"]);
   ("attach_file_to_card",
    forward c "attachFileToCard"
            [p "boardId"; p "cardId"; p "fileUrl"; p "name"; p "mimeType"]);
   ("list_boards",
    boards <- await (mkCall "listBoards" []) (listBoards c) ;;
    ret (boards_value boards));
   ("set_active_board", forward c "setActiveBoard" [p "boardId"]);
   ("list_workspaces", forward c "listWorkspaces" []);
   ("create_board", forward c "createBoard" [params]);
   ("set_active_workspace", forward c "setActiveWorkspace" [p "workspaceId"]);
   ("list_boards_in_workspace",
    forward c "listBoardsInWorkspace" [p "workspaceId"]);
   ("get_active_board_info",
    let boardId := activeBoardId c in
    if negb (truthy boardId)
    then respond 400 (VObj [("error", VStr "No active board set")])
    else board <- await (mkCall "getBoardById" [boardId]) (getBoardById c boardId) ;;
         ret (Board.to_value board));
   ("get_card", forward c "getCard" [p "cardId"; p "includeMarkdown"]);
   ("add_comment", forward c "addCommentToCard" [p "cardId"; p "text"]);
   ("update_comment", forward c "updateCommentOnCard" [p "commentId"; p "text"]);
   ("get_checklist_items", forward c "getChecklistItems" [p "name"; p "boardId"]);
   ("add_checklist_item",
    forward c "addChecklistItem" [p "text"; p "checkListName"; p "boardId"]);
   ("find_checklist_items_by_description",
    forward c "findChecklistItemsByDescription" [p "description"; p "boardId"]);
   ("get_acceptance_criteria", forward c "getAcceptanceCriteria" [p "boardId"]);
   ("get_checklist_by_name", forward c "getChecklistByName" [p "name"; p "boardId"])].

Definition request_params (body : value) : value :=
  or_else (get body "params") obj_empty.

(** The local [id]: read from the body only when [req.body.jsonrpc] is
    truthy. *)
Definition request_id (body : value) : value :=
  if truthy (get body "jsonrpc") then get body "id" else VUndefined.

Definition method_required (body : value) : value :=
  VObj [("error", VStr "Method is required");
        ("jsonrpc", VStr "2.0");
        ("id", or_else (request_id body) VNull)].

(** The body [{error: `Unknown method: ${method}`}], given the text of
    the method. *)
Definition unknown_method (text : string) : value :=
  VObj [("error", VStr ("Unknown method: " ++ text))].

(** [return res.status(400).json({ error: `Unknown method: ${method}` })]. *)
Definition respond_unknown_method (method : value) : run value :=
  message <- template "Unknown method: " method ;;
  respond 400 (VObj [("error", VStr message)]).

(** The body of the [try] block of [app.post('/mcp')], up to the second
    [console.log]: the log of the method, whose template literal is
    evaluated first, the check of the method, the switch, which gives
    [result], and the log of the response. *)
Definition handle (c : TrelloClient) (body : value) : run value :=
  let method := get body "method" in
  let params := request_params body in
  _ <- template "MCP Request: " (or_else method (VStr "unknown")) ;;
  if negb (truthy method) then respond 400 (method_required body)
  else
    result <-
      switch method
        ([("initialize", ret initialize_result);
          ("tools/list", ret tools_list_result);
          ("tools/call", tools_call c params)]
         ++ legacy_cases c params
         ++ [("notifications/initialized", respond 200 obj_empty)])%list
        (respond_unknown_method method) ;;
    _ <- template "MCP Response: " method ;;
    ret result.

(** ** The response *)

(** The Express response object: whether headers went out, the responses
    written, in order, and the errors that left the handler uncaught (the
    rejection of the promise of the [async] handler). *)
Record Res : Type := mkRes {
  headersSent : bool;
  sent : list (nat * value);
  uncaught : list exn
}.

Definition headers_sent_error : exn :=
  Error "Cannot set headers after they are sent to the client".

(** [res.status(status).json(body)]: Express writes the response, or, when
    the headers were already sent, writes nothing and throws. *)
Definition res_json (status : nat) (body : value) (res : Res) : Res * option exn :=
  if headersSent res
  then (res, Some headers_sent_error)
  else (mkRes true (sent res ++ [(status, body)])%list (uncaught res), None).

Definition request_timeout : N := 3000.

Definition internal_error : Z := -32603.

Definition timeout_body (body : value) : value :=
  VObj [("jsonrpc", VStr "2.0");
        ("error", VObj [("code", VNum internal_error);
                        ("message", VStr "Request timeout")]);
        ("id", or_else (get body "id") VNull)].

(** The callback of the outer [setTimeout]. *)
Definition on_timeout (body : value) (res : Res) : Res :=
  if headersSent res then res else fst (res_json 500 (timeout_body body) res).

Definition success_body (body result : value) : value :=
  if truthy (get body "jsonrpc")
  then VObj [("jsonrpc", VStr "2.0"); ("result", result); ("id", request_id body)]
  else VObj [("result", result)].

Definition error_body (body : value) (error : exn) : value :=
  let message := message_or error "Unknown error occurred" in
  if truthy (get body "jsonrpc")
  then VObj [("jsonrpc", VStr "2.0");
             ("error", VObj [("code", VNum internal_error);
                             ("message", VStr message)]);
             ("id", or_else (get body "id") VNull)]
  else VObj [("error", VStr message)].

(** The [catch] block: it sends without a check, so an error thrown by
    the send leaves the handler. *)
Definition catch_block (body : value) (error : exn) (res : Res) : Res :=
  match res_json 500 (error_body body error) res with
  | (res', None) => res'
  | (res', Some thrown) =>
      mkRes (headersSent res') (sent res') (uncaught res' ++ [thrown])%list
  end.

(** What the handler does to the response when the [try] block ends: the
    success path sends under the [headersSent] check, the [catch] block
    sends directly, and so does an early return, inside the [try]. *)
Definition finish (body : value) (o : outcome value) (res : Res) : Res :=
  match o with
  | Done result =>
      if headersSent res then res
      else fst (res_json 200 (success_body body result) res)
  | Throw error => catch_block body error res
  | Respond status b =>
      match res_json status b res with
      | (res', None) => res'
      | (res', Some thrown) => catch_block body thrown res'
      end
  | Hang => res
  end.

(** [clearTimeout(timeout)] is reached on the success path and in the
    [catch] block, not on an early [return]. *)
Definition clears_timeout (o : outcome value) : bool :=
  match o with
  | Done _ | Throw _ => true
  | Respond _ _ | Hang => false
  end.

(** One request to [POST /mcp]: the handler and the three-second timer,
    whichever comes first; the handler comes first when it ends strictly
    before the timer is due. *)
Definition post_mcp (c : TrelloClient) (body : value) : Res :=
  let r := handle c body in
  let fresh := mkRes false [] [] in
  match out r with
  | Hang => on_timeout body fresh
  | o =>
      if (elapsed r <? request_timeout)%N
      then let res := finish body o fresh in
           if clears_timeout o then res else on_timeout body res
      else finish body o (on_timeout body fresh)
  end.

(** ** Requests and what the specification says about them *)

Definition toolName (body : value) : value := get (request_params body) "name".

Definition toolArguments (body : value) : value :=
  or_else (get (request_params body) "arguments") obj_empty.

(** [body] is a [tools/call] request that names the tool [tool]. *)
Definition calls_tool (body : value) (tool : string) : Prop :=
  get body "method" = VStr "tools/call" /\ toolName body = VStr tool.

(** The case labels of the outer [switch (method)], in source order. *)
Definition method_names : list string :=
  ["initialize"; "tools/list"; "tools/call";
   "get_cards_by_list_id"; "get_lists"; "get_recent_activity";
   "add_card_to_list"; "update_card_details"; "archive_card"; "move_card";
   "add_list_to_board"; "archive_list"; "get_my_cards";
   "attach_image_to_card"; "attach_file_to_card"; "list_boards";
   "set_active_board"; "list_workspaces"; "create_board";
   "set_active_workspace"; "list_boards_in_workspace";
   "get_active_board_info"; "get_card"; "add_comment"; "update_comment";
   "get_checklist_items"; "add_checklist_item";
   "find_checklist_items_by_description"; "get_acceptance_criteria";
   "get_checklist_by_name"; "notifications/initialized"].

(** [v] is none of the case labels [names]. *)
Definition unknown_name (names : list string) (v : value) : Prop :=
  forall s, v = VStr s -> ~ In s names.

(** [q] occurs in [s] when letter case is ignored: as a substring, once
    both are in lower case. *)
Definition contains_ci (s q : string) : Prop :=
  includes (toLowerCase s) (toLowerCase q) = true.

(** The board's name or description contains the query. *)
Definition mentions (board : Board.t) (q : string) : Prop :=
  contains_ci (Board.name board) q \/ contains_ci (Board.desc board) q.


(** The promise resolves, and no later than [budget] milliseconds after
    the call. *)
Definition resolves_within {A} (p : settle A) (budget : N) : Prop :=
  exists t a, p = Resolves t a /\ (t <= budget)%N.

(** The message of an error body: [error.message] of a JSON-RPC error
    object, or the [error] string of a plain body. *)
Definition error_message (body : value) : value :=
  match get body "error" with
  | VObj props => lookup "message" props
  | other => other
  end.

(** Exactly one response was sent; it has status [status] and a message
    that contains [name]. *)
Definition reported_as (status : nat) (name : string) (res : Res) : Prop :=
  exists body message,
    sent res = [(status, body)]
    /\ error_message body = VStr message
    /\ includes message name = true.

(** A body on the wire has the field [k] when the property is defined. *)
Definition has_field (body : value) (k : string) : Prop :=
  get body k <> VUndefined.

(** The first actual argument of a client call, which is the board id for
    [getLists], [getCardsByList] and [addCard]. *)
Definition board_argument (call : Call) : value := hd VUndefined (args call).

(** The bind that hands the result of a run to [JSON.stringify]. *)
Definition stringified (r : run value) : run value :=
  x <- r ;; ret (JSON_stringify x).

(** The defaulting rule of the specification, read on a run: with an active
    board selected every client call carries that board id, and without
    one the run fails before any client call. *)
Definition defaults_board_id (c : TrelloClient) (r : run value) : Prop :=
  match activeBoardId c with
  | VStr active =>
      forall call, In call (calls r) -> board_argument call = VStr active
  | _ => calls r = [] /\ exists error, out r = Throw error
  end.

(** Every response sent carries the [id] of the request. *)
Definition echoes_id (body : value) (res : Res) : Prop :=
  forall status b, In (status, b) (sent res) -> get b "id" = get body "id".

Definition no_active_board : value :=
  VObj [("error", VStr "No active board set")].

Definition undefined_toLowerCase : exn :=
  TypeError "Cannot read properties of undefined (reading 'toLowerCase')".

(** A run that never ends in an early [return res...json(...)]. *)
Definition never_responds {A} (r : run A) : Prop :=
  forall status b, out r <> Respond status b.

(** A run whose early return, if any, comes at once and before any client
    call. *)
Definition responds_at_once {A} (r : run A) : Prop :=
  forall status b, out r = Respond status b -> r = respond status b.

End Handler.

(** *** Sample data *)

Definition rpc_request (id : value) (method : string) (params : value) : value :=
  VObj [("jsonrpc", VStr "2.0"); ("method", VStr method);
        ("params", params); ("id", id)].

Definition simple_request (method : string) (params : value) : value :=
  VObj [("method", VStr method); ("params", params)].

Definition tool_params (tool : string) (arguments : value) : value :=
  VObj [("name", VStr tool); ("arguments", arguments)].

Definition sav_client : Board.t :=
  Board.mk "5bed4a25a96b2a582160d31b" "SAV Client" "" false VNull
           "https://trello.com/b/abc/sav-client" "https://trello.com/b/abc".

Definition projet_x : Board.t :=
  Board.mk "5d0cb0d644b32880ea8268ea" "Projet X" "suivi interne" true
           (VStr "org1")
           "https://trello.com/b/xyz/projet-x" "https://trello.com/b/xyz".

Definition todo_list : TList.t :=
  TList.mk "5f8b2c1a3d4e5f6a7b8c9d0f" "To Do" false "5bed4a25a96b2a582160d31b".

Definition is_string (v : value) (s : string) : bool :=
  match v with
  | VStr s' => String.eqb s' s
  | _ => false
  end.

(** A client that knows the two boards, answers quickly, and has no active
    board. *)
Definition sample_client : TrelloClient := {|
  activeBoardId := VUndefined;
  listBoards := Resolves 120 [sav_client; projet_x];
  getBoardById := fun id =>
    if is_string id (Board.id sav_client) then Resolves 80 sav_client
    else Rejects 80 (Error "invalid id");
  getLists := fun id =>
    if is_string id "abc" then Resolves 60 [todo_list]
    else if is_string id (Board.id sav_client) then Resolves 60 []
    else Rejects 60 (Error "invalid id");
  getCardsByList := fun _ _ => Resolves 40 (VArr []);
  addCard := fun _ card => Resolves 90 card;
  invoke := fun _ _ => Resolves 30 VNull
|}.

(** The same client with an active board selected. *)
Definition client_with_active_board : TrelloClient := {|
  activeBoardId := VStr (Board.id sav_client);
  listBoards := listBoards sample_client;
  getBoardById := getBoardById sample_client;
  getLists := getLists sample_client;
  getCardsByList := getCardsByList sample_client;
  addCard := addCard sample_client;
  invoke := invoke sample_client
|}.

(** A client whose every call fails after five seconds. *)
Definition slow_failing_client : TrelloClient := {|
  activeBoardId := VUndefined;
  listBoards := Rejects 5000 (Error "socket hang up");
  getBoardById := fun _ => Rejects 5000 (Error "socket hang up");
  getLists := fun _ => Rejects 5000 (Error "socket hang up");
  getCardsByList := fun _ _ => Rejects 5000 (Error "socket hang up");
  addCard := fun _ _ => Rejects 5000 (Error "socket hang up");
  invoke := fun _ _ => Rejects 5000 (Error "socket hang up")
|}.

(** A client whose board listing fails at once. *)
Definition failing_client : TrelloClient := {|
  activeBoardId := VUndefined;
  listBoards := Rejects 15 (Error "invalid token");
  getBoardById := fun _ => Rejects 15 (Error "invalid token");
  getLists := fun _ => Rejects 15 (Error "invalid token");
  getCardsByList := fun _ _ => Rejects 15 (Error "invalid token");
  addCard := fun _ _ => Rejects 15 (Error "invalid token");
  invoke := fun _ _ => Rejects 15 (Error "invalid token")
|}.

(** A client whose board listing never settles. *)
Definition silent_client : TrelloClient := {|
  activeBoardId := VUndefined;
  listBoards := Pending;
  getBoardById := fun _ => Pending;
  getLists := fun _ => Pending;
  getCardsByList := fun _ _ => Pending;
  addCard := fun _ _ => Pending;
  invoke := fun _ _ => Pending
|}.

(** ** The rest of the server *)

(** What an early [return res.status(s).json(b)] of the handler can send:
    the unknown-method answer, the answer of [get_active_board_info]
    without an active board, or the acknowledgement of
    [notifications/initialized]. *)
Definition early_answer_of_switch (status : nat) (b : value) : Prop :=
  (status = 400 /\ exists text, b = unknown_method text)
  \/ (status = 400 /\ b = no_active_board)
  \/ (status = 200 /\ b = obj_empty).

(** The same, or the missing-method answer. *)
Definition early_answer (body : value) (status : nat) (b : value) : Prop :=
  (status = 400 /\ b = method_required body)
  \/ early_answer_of_switch status b.

(** The [tools] array of [GET /tools]. *)
Definition listed_tools : list string :=
  ["search"; "fetch"; "list_boards"; "get_cards_by_list_id"; "get_lists";
   "create_card"].

(** The body of [GET /tools]. *)
Definition get_tools : value :=
  VObj [("tools", VArr (map VStr listed_tools));
        ("count", VNum (Z.of_nat (List.length listed_tools)));
        ("description",
         VStr "Available Trello MCP tools - conform to OpenAI MCP specification")].

(** The body of [GET /mcp]. *)
Definition get_mcp : value :=
  VObj [("jsonrpc", VStr "2.0");
        ("result",
         VObj [("protocolVersion", VStr "2024-11-05");
               ("capabilities", VObj [("tools", obj_empty)]);
               ("serverInfo", VObj [("name", VStr "mcp-server-trello");
                                    ("version", VStr "1.3.1")])]);
        ("id", VNull)].

(** The descriptors of a [tools/list] result. *)
Definition descriptors (result : value) : list value :=
  match get result "tools" with
  | VArr ds => ds
  | _ => []
  end.

(** The property names of a descriptor's input schema. *)
Definition schema_properties (d : value) : list string :=
  match get (get d "inputSchema") "properties" with
  | VObj ps => map fst ps
  | _ => []
  end.

(** The required keys of a descriptor's input schema. *)
Definition schema_required (d : value) : list value :=
  match get (get d "inputSchema") "required" with
  | VArr ks => ks
  | _ => []
  end.

(** [arguments] is an object with no key outside the schema of the
    descriptor ([additionalProperties: false]). *)
Definition conforms (arguments d : value) : Prop :=
  exists props,
    arguments = VObj props
    /\ forall k, In k (map fst props) -> In k (schema_properties d).


(** *** The earlier server: direct methods only

    [app.post('/mcp')] of the server without [tools/call]: the same
    twenty-seven direct methods, [params] taken from the body as it is, no
    timer, the plain bodies [{result}] and [{error}]. *)
Module Simple.

Section Server.

Context {rt : Runtime}.

(** The expression [v.k]: a type error when [v] is [undefined] or
    [null]. *)
Definition read (v : value) (k : string) : run value :=
  match v with
  | VUndefined =>
      throw (TypeError ("Cannot read properties of undefined (reading '"
                        ++ k ++ "')"))
  | VNull =>
      throw (TypeError ("Cannot read properties of null (reading '"
                        ++ k ++ "')"))
  | _ => ret (get v k)
  end.

(** The actual arguments [v.k1, v.k2, ...], evaluated left to right. *)
Fixpoint reads (v : value) (keys : list string) : run (list value) :=
  match keys with
  | [] => ret []
  | k :: rest => x <- read v k ;; xs <- reads v rest ;; ret (x :: xs)
  end.

(** [result = await trelloClient.m(params.k1, params.k2, ...)]. *)
Definition forward_reading (c : TrelloClient) (m : string) (params : value)
           (keys : list string) : run value :=
  actuals <- reads params keys ;; forward c m actuals.

Definition method_cases (c : TrelloClient) (params : value)
  : list (string * run value) :=
  [("get_cards_by_list_id",
    boardId <- read params "boardId" ;;
    listId <- read params "listId" ;;
    await (mkCall "getCardsByList" [boardId; listId])
          (getCardsByList c boardId listId));
   ("get_lists",
    boardId <- read params "boardId" ;;
    lists <- await (mkCall "getLists" [boardId]) (getLists c boardId) ;;
    ret (lists_value lists));
   ("get_recent_activity",
    forward_reading c "getRecentActivity" params ["boardId"; "limit"]);
   ("add_card_to_list",
    boardId <- read params "boardId" ;;
    await (mkCall "addCard" [boardId; params]) (addCard c boardId params));
   ("update_card_details",
    boardId <- read params "boardId" ;;
    forward c "updateCard" [boardId; params]);
   ("archive_card", forward_reading c "archiveCard" params ["boardId"; "cardId"]);
   ("move_card",
    forward_reading c "moveCard" params ["boardId"; "cardId"; "listId"]);
   ("add_list_to_board", forward_reading c "addList" params ["boardId"; "name"]);
   ("archive_list", forward_reading c "archiveList" params ["boardId"; "listId"]);
   ("get_my_cards", forward c "getMyCards" []);
   ("attach_image_to_card",
    forward_reading c "attachImageToCard" params
                    ["boardId"; "cardId"; "imageUrl"; "name"]);
   ("attach_file_to_card",
    forward_reading c "attachFileToCard" params
                    ["boardId"; "cardId"; "fileUrl"; "name"; "mimeType"]);
   ("list_boards",
    boards <- await (mkCall "listBoards" []) (listBoards c) ;;
    ret (boards_value boards));
   ("set_active_board", forward_reading c "setActiveBoard" params ["boardId"]);
   ("list_workspaces", forward c "listWorkspaces" []);
   ("create_board", forward c "createBoard" [params]);
   ("set_active_workspace",
    forward_reading c "setActiveWorkspace" params ["workspaceId"]);
   ("list_boards_in_workspace",
    forward_reading c "listBoardsInWorkspace" params ["workspaceId"]);
   ("get_active_board_info",
    let boardId := activeBoardId c in
    if negb (truthy boardId)
    then respond 400 (VObj [("error", VStr "No active board set")])
    else board <- await (mkCall "getBoardById" [boardId]) (getBoardById c boardId) ;;
         ret (Board.to_value board));
   ("get_card", forward_reading c "getCard" params ["cardId"; "includeMarkdown"]);
   ("add_comment", forward_reading c "addCommentToCard" params ["cardId"; "text"]);
   ("update_comment",
    forward_reading c "updateCommentOnCard" params ["commentId"; "text"]);
   ("get_checklist_items",
    forward_reading c "getChecklistItems" params ["name"; "boardId"]);
   ("add_checklist_item",
    forward_reading c "addChecklistItem" params
                    ["text"; "checkListName"; "boardId"]);
   ("find_checklist_items_by_description",
    forward_reading c "findChecklistItemsByDescription" params
                    ["description"; "boardId"]);
   ("get_acceptance_criteria",
    forward_reading c "getAcceptanceCriteria" params ["boardId"]);
   ("get_checklist_by_name",
    forward_reading c "getChecklistByName" params ["name"; "boardId"])].

(** The body of the [try] block, up to the value of [result]. *)
Definition handle (c : TrelloClient) (body : value) : run value :=
  let method := get body "method" in
  let params := get body "params" in
  if negb (truthy method)
  then respond 400 (VObj [("error", VStr "Method is required")])
  else switch method (method_cases c params) (respond_unknown_method method).

(** One request: [res.json({result})] after the switch,
    [res.status(500).json({error})] in the [catch] block; no timer, so
    nothing is sent while an awaited call stays pending. *)
Definition post_mcp (c : TrelloClient) (body : value) : Res :=
  let fresh := mkRes false [] [] in
  match out (handle c body) with
  | Done result => fst (res_json 200 (VObj [("result", result)]) fresh)
  | Throw error =>
      fst (res_json 500
             (VObj [("error", VStr (message_or error "Unknown error occurred"))])
             fresh)
  | Respond status b => fst (res_json status b fresh)
  | Hang => fresh
  end.

End Server.

(** The direct methods that read a property of [params], each with the
    first property it reads. *)
Definition first_read : list (string * string) :=
  [("get_cards_by_list_id", "boardId"); ("get_lists", "boardId");
   ("get_recent_activity", "boardId"); ("add_card_to_list", "boardId");
   ("update_card_details", "boardId"); ("archive_card", "boardId");
   ("move_card", "boardId"); ("add_list_to_board", "boardId");
   ("archive_list", "boardId"); ("attach_image_to_card", "boardId");
   ("attach_file_to_card", "boardId"); ("set_active_board", "boardId");
   ("set_active_workspace", "workspaceId");
   ("list_boards_in_workspace", "workspaceId"); ("get_card", "cardId");
   ("add_comment", "cardId"); ("update_comment", "commentId");
   ("get_checklist_items", "name"); ("add_checklist_item", "text");
   ("find_checklist_items_by_description", "description");
   ("get_acceptance_criteria", "boardId"); ("get_checklist_by_name", "name")].

End Simple.

(** The labels of the direct methods, in source order. *)
Definition legacy_names : list string :=
  ["get_cards_by_list_id"; "get_lists"; "get_recent_activity";
   "add_card_to_list"; "update_card_details"; "archive_card"; "move_card";
   "add_list_to_board"; "archive_list"; "get_my_cards";
   "attach_image_to_card"; "attach_file_to_card"; "list_boards";
   "set_active_board"; "list_workspaces"; "create_board";
   "set_active_workspace"; "list_boards_in_workspace";
   "get_active_board_info"; "get_card"; "add_comment"; "update_comment";
   "get_checklist_items"; "add_checklist_item";
   "find_checklist_items_by_description"; "get_acceptance_criteria";
   "get_checklist_by_name"].

(** *** The keep-alive stream of [GET /sse] *)
Module Sse.

Definition connection_event : string :=
  "data: {" ++ quote "type" ++ ":" ++ quote "connection" ++ ","
  ++ quote "status" ++ ":" ++ quote "connected" ++ "}"
  ++ String "010" (String "010" "").

Definition ping_event : string :=
  "data: {" ++ quote "type" ++ ":" ++ quote "ping" ++ "}"
  ++ String "010" (String "010" "").

Definition period : N := 30000.

(** The stream of one connection: the clock, the chunks written so far,
    and the interval timer [keepAlive] with the time of its next firing
    ([None] once cleared). *)
Record state : Type := mk {
  now : N;
  written : list string;
  keepAlive : option N
}.

(** The handler runs at time [t0]: the first chunk, then [setInterval]. *)
Definition open (t0 : N) : state :=
  mk t0 [connection_event] (Some (t0 + period)%N).

(** What happens to the connection: time passes, or the peer closes. *)
Inductive input : Type :=
| Wait (d : N)
| Close.

(** Time passes by [d]: every firing of the interval that is due by then
    writes one ping. *)
Definition wait (d : N) (s : state) : state :=
  let t := (now s + d)%N in
  match keepAlive s with
  | None => mk t (written s) None
  | Some due =>
      if (due <=? t)%N
      then let n := ((t - due) / period + 1)%N in
           mk t (written s ++ repeat ping_event (N.to_nat n))%list
              (Some (due + n * period)%N)
      else mk t (written s) (Some due)
  end.

(** [req.on('close')]: [clearInterval(keepAlive)]. *)
Definition close (s : state) : state := mk (now s) (written s) None.

Definition step (s : state) (i : input) : state :=
  match i with
  | Wait d => wait d s
  | Close => close s
  end.

Definition run (t0 : N) (inputs : list input) : state :=
  fold_left step inputs (open t0).

(** The time that has passed before the first [Close]. *)
Fixpoint open_time (inputs : list input) : N :=
  match inputs with
  | [] => 0
  | Wait d :: rest => (d + open_time rest)%N
  | Close :: _ => 0
  end.

End Sse.

(** ** Facts about strings *)

Section StringFacts.

Lemma prefix_iff (p s : string) :
  prefix p s = true <-> exists post, s = p ++ post.
Proof.
  revert s; induction p as [|a p IH]; intros s.
  - split; [intros _; now exists s | intros _; now destruct s].
  - destruct s as [|b s]; simpl.
    + split; [discriminate | intros [post H]; discriminate].
    + destruct (ascii_dec a b) as [->|Hab].
      * rewrite IH. split; intros [post H]; exists post.
        -- now rewrite H.
        -- now injection H.
      * split; [discriminate | intros [post H]; injection H; intros; congruence].
Qed.

Lemma includes_iff (s sub : string) :
  includes s sub = true <-> exists pre post, s = pre ++ sub ++ post.
Proof.
  induction s as [|a s IH].
  - change (includes "" sub) with (if prefix sub "" then true else false).
    destruct (prefix sub "") eqn:E.
    + apply prefix_iff in E. destruct E as [post E].
      split; [intros _; exists "", post; exact E | reflexivity].
    + split; [discriminate|]. intros [pre [post H]].
      destruct pre; simpl in H.
      * assert (prefix sub "" = true) by (apply prefix_iff; now exists post).
        congruence.
      * discriminate.
  - change (includes (String a s) sub)
      with (if prefix sub (String a s) then true else includes s sub).
    destruct (prefix sub (String a s)) eqn:E.
    + apply prefix_iff in E. destruct E as [post E].
      split; [intros _; exists "", post; exact E | reflexivity].
    + rewrite IH. split.
      * intros [pre [post H]]. exists (String a pre), post. simpl. now rewrite H.
      * intros [pre [post H]]. destruct pre as [|b pre]; simpl in H.
        -- assert (prefix sub (String a s) = true)
             by (apply prefix_iff; now exists post).
           congruence.
        -- injection H; intros H' _. now exists pre, post.
Qed.

Lemma includes_suffix (pre s : string) : includes (pre ++ s) s = true.
Proof.
  apply includes_iff. exists pre, "".
  f_equal. induction s; simpl; congruence.
Qed.

End StringFacts.

(** ** Laws of runs *)

Section RunLaws.

Context {A B C : Type}.

Lemma bind_ret_l (a : A) (k : A -> run B) : bind (ret a) k = k a.
Proof. unfold bind, after; simpl. now destruct (k a). Qed.

Lemma bind_ret_r (m : run A) : bind m ret = m.
Proof.
  destruct m as [t cs [a|e|s b|]]; unfold bind, after; simpl;
    rewrite ?N.add_0_r, ?app_nil_r; reflexivity.
Qed.

Lemma bind_assoc (m : run A) (f : A -> run B) (g : B -> run C) :
  bind (bind m f) g = bind m (fun x => bind (f x) g).
Proof.
  destruct m as [t cs [a|e|s b|]]; try reflexivity.
  unfold bind, after; simpl.
  destruct (f a) as [t' cs' [a'|e'|s' b'|]]; simpl;
    rewrite ?N.add_assoc, ?app_assoc; reflexivity.
Qed.

Lemma bind_throw (e : exn) (k : A -> run B) : bind (throw e) k = throw e.
Proof. reflexivity. Qed.

End RunLaws.

(** ** Reaching a case of the two switches *)

Section Dispatch.

Context {rt : Runtime}.
Variable c : TrelloClient.
Variable body : value.

Lemma switch_cases_default {A} (s : string) (cases : list (string * A)) (d : A) :
  ~ In s (map fst cases) -> switch_cases s cases d = d.
Proof.
  induction cases as [|[k x] rest IH]; simpl; intros H; [reflexivity|].
  destruct (String.eqb_spec s k) as [->|_]; [exfalso; auto|].
  apply IH. intros Hin. apply H. now right.
Qed.

Lemma template_string (prefix s : string) :
  template prefix (VStr s) = ret (prefix ++ s).
Proof. reflexivity. Qed.

(** With a string as method, the two logs of the method do nothing but
    succeed. *)
Lemma handle_legacy (m : string) :
  get body "method" = VStr m ->
  m <> "" ->
  handle c body =
  switch_cases m
    ([("initialize", ret initialize_result);
      ("tools/list", ret tools_list_result);
      ("tools/call", tools_call c (request_params body))]
     ++ legacy_cases c (request_params body)
     ++ [("notifications/initialized", respond 200 obj_empty)])%list
    (respond 400 (unknown_method m)).
Proof.
  intros Hm Hne. unfold handle. rewrite Hm. unfold or_else. simpl truthy.
  destruct (String.eqb_spec m "") as [->|_]; [contradiction|].
  simpl negb. cbv iota. rewrite template_string, bind_ret_l.
  etransitivity; [|apply bind_ret_r]. reflexivity.
Qed.

Lemma handle_tools_call :
  get body "method" = VStr "tools/call" ->
  handle c body = tools_call c (request_params body).
Proof.
  intros Hm. rewrite (handle_legacy "tools/call" Hm); [reflexivity|discriminate].
Qed.

Lemma handle_tool (tool : string) :
  calls_tool body tool ->
  handle c body =
  switch_cases tool
    [("search", tool_search c (toolArguments body));
     ("fetch", tool_fetch c (toolArguments body));
     ("list_boards", tool_list_boards c);
     ("get_cards_by_list_id", tool_get_cards_by_list_id c (toolArguments body));
     ("get_lists", tool_get_lists c (toolArguments body));
     ("create_card", tool_create_card c (toolArguments body))]
    (throw (Error ("Unknown tool: " ++ tool))).
Proof.
  intros [Hm Hn]. rewrite (handle_tools_call Hm).
  unfold tools_call. fold (toolName body). rewrite Hn.
  rewrite template_string, bind_ret_l. reflexivity.
Qed.

End Dispatch.

(** ** The [search] tool *)

Lemma board_matches_iff {rt : Runtime} (board : Board.t) (q : string) :
  board_matches (toLowerCase q) board = true <-> mentions board q.
Proof. unfold board_matches, mentions, contains_ci. apply orb_true_iff. Qed.




(** ** The [fetch] tool *)

Lemma to_string_string {rt : Runtime} (s : string) : to_string (VStr s) = Some s.
Proof. reflexivity. Qed.

Lemma template_converts {rt : Runtime} (prefix : string) (v : value) (text : string) :
  to_string v = Some text -> template prefix v = ret (prefix ++ text).
Proof. intros H. unfold template. now rewrite H. Qed.

Lemma template_throws {rt : Runtime} (prefix : string) (v : value) :
  to_string v = None -> template prefix v = throw cannot_convert.
Proof. intros H. unfold template. now rewrite H. Qed.




(** ** From the end of the handler to the response *)

Section Response.

Context {rt : Runtime}.
Variable c : TrelloClient.
Variable body : value.

Lemma post_mcp_done (result : value) :
  out (handle c body) = Done result ->
  (elapsed (handle c body) < request_timeout)%N ->
  post_mcp c body = mkRes true [(200, success_body body result)] [].
Proof.
  intros Ho Ht. unfold post_mcp. rewrite Ho.
  apply N.ltb_lt in Ht. rewrite Ht. reflexivity.
Qed.

Lemma post_mcp_throw (error : exn) :
  out (handle c body) = Throw error ->
  (elapsed (handle c body) < request_timeout)%N ->
  post_mcp c body = mkRes true [(500, error_body body error)] [].
Proof.
  intros Ho Ht. unfold post_mcp. rewrite Ho.
  apply N.ltb_lt in Ht. rewrite Ht. reflexivity.
Qed.

Lemma post_mcp_late_throw (error : exn) :
  out (handle c body) = Throw error ->
  (request_timeout <= elapsed (handle c body))%N ->
  post_mcp c body
  = mkRes true [(500, timeout_body body)] [headers_sent_error].
Proof.
  intros Ho Ht. unfold post_mcp. rewrite Ho.
  apply N.ltb_ge in Ht. rewrite Ht. reflexivity.
Qed.

Lemma post_mcp_late_done (result : value) :
  out (handle c body) = Done result ->
  (request_timeout <= elapsed (handle c body))%N ->
  post_mcp c body = mkRes true [(500, timeout_body body)] [].
Proof.
  intros Ho Ht. unfold post_mcp. rewrite Ho.
  apply N.ltb_ge in Ht. rewrite Ht. reflexivity.
Qed.

Lemma post_mcp_hang :
  out (handle c body) = Hang ->
  post_mcp c body = mkRes true [(500, timeout_body body)] [].
Proof. intros Ho. unfold post_mcp. rewrite Ho. reflexivity. Qed.

Lemma post_mcp_respond (status : nat) (b : value) :
  out (handle c body) = Respond status b ->
  (elapsed (handle c body) < request_timeout)%N ->
  post_mcp c body = mkRes true [(status, b)] [].
Proof.
  intros Ho Ht. unfold post_mcp. rewrite Ho.
  apply N.ltb_lt in Ht. rewrite Ht. reflexivity.
Qed.

Lemma post_mcp_late_respond (status : nat) (b : value) :
  out (handle c body) = Respond status b ->
  (request_timeout <= elapsed (handle c body))%N ->
  post_mcp c body
  = mkRes true [(500, timeout_body body)] [headers_sent_error].
Proof.
  intros Ho Ht. unfold post_mcp. rewrite Ho.
  apply N.ltb_ge in Ht. rewrite Ht. reflexivity.
Qed.

End Response.

(** ** The [list_boards] tool *)

Lemma boards_failure_shape {rt : Runtime} (error : exn) :
  get (boards_failure error) "error" = VStr "Failed to fetch boards"
  /\ get (boards_failure error) "boards" = VArr [].
Proof. split; reflexivity. Qed.

(** The race of [list_boards] lost or failed: the run ends normally, within
    the two seconds, with the failure object as its result. *)
Lemma tool_list_boards_failure {rt : Runtime} (c : TrelloClient) :
  ~ resolves_within (listBoards c) tool_timeout ->
  exists error,
    out (tool_list_boards c) = Done (JSON_stringify (boards_failure error))
    /\ (elapsed (tool_list_boards c) <= tool_timeout)%N
    /\ ((forall t e, listBoards c = Rejects t e -> (tool_timeout <= t)%N) ->
        error = Error "Trello API timeout").
Proof.
  intros Hslow. unfold tool_list_boards, await_race.
  destruct (listBoards c) as [t boards|t e|] eqn:El.
  - destruct (N.ltb_spec t tool_timeout) as [Hlt|Hge].
    + exfalso. apply Hslow. exists t, boards. split; [reflexivity|lia].
    + exists (Error "Trello API timeout"). cbn.
      repeat split; try reflexivity; unfold tool_timeout; lia.
  - destruct (N.ltb_spec t tool_timeout) as [Hlt|Hge].
    + exists e. cbn. repeat split; try lia.
      intros H. specialize (H t e eq_refl). lia.
    + exists (Error "Trello API timeout"). cbn.
      repeat split; try reflexivity; unfold tool_timeout; lia.
  - exists (Error "Trello API timeout"). cbn.
    repeat split; try reflexivity; unfold tool_timeout; lia.
Qed.

(** C4.  A [tools/call] of [list_boards] whose board listing does not
    resolve within the two-second budget (it resolves later, is rejected,
    or never settles): the handler does not throw; its result is the JSON
    text of an object with the marker [error: 'Failed to fetch boards'] and
    an empty [boards] array, and the one response sent has status 200 and
    carries that result. *)
Theorem list_boards_timeout_is_a_result {rt : Runtime}
  (c : TrelloClient) (body : value) :
  calls_tool body "list_boards" ->
  ~ resolves_within (listBoards c) tool_timeout ->
  exists error,
    out (handle c body) = Done (JSON_stringify (boards_failure error))
    /\ get (boards_failure error) "error" = VStr "Failed to fetch boards"
    /\ get (boards_failure error) "boards" = VArr []
    /\ sent (post_mcp c body)
       = [(200, success_body body (JSON_stringify (boards_failure error)))]
    /\ ((forall t e, listBoards c = Rejects t e -> (tool_timeout <= t)%N) ->
        error = Error "Trello API timeout").
Proof.
  intros Hcall Hslow.
  destruct (tool_list_boards_failure c Hslow) as [error [Ho [Ht Hwhich]]].
  assert (Hh : handle c body = tool_list_boards c).
  { rewrite (handle_tool c body _ Hcall). reflexivity. }
  exists error. rewrite <- Hh in Ho, Ht.
  split; [exact Ho|]. split; [reflexivity|]. split; [reflexivity|].
  split; [|exact Hwhich].
  rewrite (post_mcp_done c body _ Ho); [reflexivity|].
  unfold tool_timeout, request_timeout in *. lia.
Qed.

Lemma list_boards_timeout_is_a_result_witness :
  sent (post_mcp silent_client
          (rpc_request (VNum 3) "tools/call" (tool_params "list_boards" obj_empty)))
  = [(200, VObj [("jsonrpc", VStr "2.0");
                 ("result", JSON_stringify
                              (boards_failure (Error "Trello API timeout")));
                 ("id", VNum 3)])].
Proof.
  destruct (list_boards_timeout_is_a_result silent_client
              (rpc_request (VNum 3) "tools/call" (tool_params "list_boards" obj_empty))
              (conj eq_refl eq_refl))
    as [error [_ [_ [_ [Hsent Hwhich]]]]].
  - intros [t [a [H _]]]. discriminate H.
  - rewrite Hsent, Hwhich; [reflexivity|]. intros t e H. discriminate H.
Defined.

(** ** [tools/call] against the direct methods *)

(** C5 fails as stated.  The request [{method: 'tools/call',
    params: {name: 'get_lists', arguments: A}}] and the direct request [{method: 'get_lists', params: A}]
    give different results: the first a string, the second an array. *)
Lemma tool_call_vs_direct_counterexample :
  let A := VObj [("boardId", VStr "abc")] in
  out (handle sample_client (simple_request "tools/call" (tool_params "get_lists" A)))
  <> out (handle sample_client (simple_request "get_lists" A)).
Proof. vm_compute. discriminate. Qed.

(** C5, amended.  For [get_lists] and [get_cards_by_list_id] and every
    argument value [A]: the [tools/call] request with
    [params = {name, arguments: A}] runs exactly as the direct request with
    [params = A] does (same client call, same time, same failure) except
    that its result is [JSON.stringify] of the direct request's result. *)
Theorem tool_call_stringifies_direct_result {rt : Runtime}
  (c : TrelloClient) (tb lb : value) (name : string) (A : value) :
  name = "get_lists" \/ name = "get_cards_by_list_id" ->
  calls_tool tb name ->
  get (request_params tb) "arguments" = A ->
  get lb "method" = VStr name ->
  get lb "params" = A ->
  handle c tb = stringified (handle c lb).
Proof.
  intros Hname Htool Harg Hm Hp.
  rewrite (handle_tool c tb _ Htool).
  assert (Hne : name <> "") by (destruct Hname; subst; discriminate).
  rewrite (handle_legacy c lb name Hm Hne).
  unfold toolArguments. rewrite Harg.
  unfold request_params. rewrite Hp.
  set (args := or_else A obj_empty).
  destruct Hname; subst name; cbn [switch_cases app legacy_cases String.eqb Ascii.eqb Bool.eqb].
  - unfold tool_get_lists, stringified.
    rewrite bind_assoc. reflexivity.
  - unfold tool_get_cards_by_list_id, stringified.
    reflexivity.
Qed.

Lemma tool_call_stringifies_direct_result_witness :
  let A := VObj [("boardId", VStr "abc")] in
  handle sample_client (rpc_request (VNum 1) "tools/call" (tool_params "get_lists" A))
  = stringified (handle sample_client (rpc_request (VNum 2) "get_lists" A)).
Proof.
  exact (tool_call_stringifies_direct_result sample_client
           (rpc_request (VNum 1) "tools/call"
              (tool_params "get_lists" (VObj [("boardId", VStr "abc")])))
           (rpc_request (VNum 2) "get_lists" (VObj [("boardId", VStr "abc")]))
           "get_lists" (VObj [("boardId", VStr "abc")])
           (or_introl eq_refl) (conj eq_refl eq_refl) eq_refl eq_refl eq_refl).
Defined.

(** The other two names of the claim: the [list_boards] tool filters,
    truncates and projects the boards that the direct method returns whole,
    and [create_card] is not a direct method. *)
Lemma list_boards_tool_vs_direct {rt : Runtime}
  (c : TrelloClient) (boards : list Board.t) (t : N) :
  listBoards c = Resolves t boards ->
  (t < tool_timeout)%N ->
  out (handle c (simple_request "tools/call" (tool_params "list_boards" obj_empty)))
  = Done (JSON_stringify (VArr (recentBoards boards)))
  /\ out (handle c (simple_request "list_boards" obj_empty))
     = Done (boards_value boards).
Proof.
  intros Hl Ht. split.
  - rewrite (handle_tool c (simple_request "tools/call" (tool_params "list_boards" obj_empty))
               "list_boards" (conj eq_refl eq_refl)).
    cbn [switch_cases String.eqb Ascii.eqb Bool.eqb].
    unfold tool_list_boards, await_race. rewrite Hl.
    apply N.ltb_lt in Ht. rewrite Ht. reflexivity.
  - rewrite (handle_legacy c (simple_request "list_boards" obj_empty)
               "list_boards" eq_refl); [|discriminate].
    cbn. rewrite Hl. reflexivity.
Qed.

Lemma create_card_is_not_direct {rt : Runtime} (c : TrelloClient) (A : value) :
  handle c (simple_request "create_card" A)
  = respond 400 (unknown_method "create_card").
Proof.
  rewrite (handle_legacy c (simple_request "create_card" A) "create_card" eq_refl);
    [reflexivity|discriminate].
Qed.

(** ** Unknown names *)

(** C6 fails as stated: an unknown tool is answered with status 500, not
    400. *)
Lemma unknown_tool_counterexample :
  ~ reported_as 400 "nope"
      (post_mcp sample_client
         (rpc_request (VNum 1) "tools/call" (tool_params "nope" obj_empty))).
Proof.
  intros [b [message [Hsent _]]]. vm_compute in Hsent. discriminate Hsent.
Qed.

Lemma switch_unknown {A} (names : list string) (v : value)
  (cases : list (string * A)) (default : A) :
  map fst cases = names ->
  unknown_name names v ->
  switch v cases default = default.
Proof.
  intros Hn Hu. destruct v as [| |b|n|m|l|o]; try reflexivity.
  unfold switch. apply switch_cases_default. rewrite Hn. exact (Hu m eq_refl).
Qed.

Lemma handle_unknown_method {rt : Runtime} (c : TrelloClient) (body : value)
  (text : string) :
  truthy (get body "method") = true ->
  unknown_name method_names (get body "method") ->
  to_string (get body "method") = Some text ->
  handle c body = respond 400 (unknown_method text).
Proof.
  intros Ht Hu Hs. unfold handle, or_else. rewrite Ht. simpl negb. cbv iota.
  rewrite (@template_converts rt _ _ text Hs), bind_ret_l.
  rewrite (switch_unknown method_names); [|reflexivity|exact Hu].
  unfold respond_unknown_method.
  rewrite (@template_converts rt _ _ text Hs), bind_ret_l. reflexivity.
Qed.

(** A method that no template literal can print fails at the first log,
    before the switch. *)
Lemma handle_unprintable_method {rt : Runtime} (c : TrelloClient) (body : value) :
  truthy (get body "method") = true ->
  to_string (get body "method") = None ->
  handle c body = throw cannot_convert.
Proof.
  intros Ht Hs. unfold handle, or_else. rewrite Ht.
  now rewrite (@template_throws rt _ _ Hs).
Qed.

Lemma handle_unknown_tool {rt : Runtime} (c : TrelloClient) (body : value) :
  get body "method" = VStr "tools/call" ->
  unknown_name tool_names (toolName body) ->
  handle c body
  = match to_string (toolName body) with
    | Some text => throw (Error ("Unknown tool: " ++ text))
    | None => throw cannot_convert
    end.
Proof.
  intros Hm Hu. rewrite (handle_tools_call c body Hm).
  unfold tools_call. fold (toolName body).
  destruct (to_string (toolName body)) as [text|] eqn:Hs.
  - rewrite (@template_converts rt _ _ text Hs), bind_ret_l.
    rewrite (switch_unknown tool_names); [|reflexivity|exact Hu].
    now rewrite (@template_converts rt _ _ text Hs), bind_ret_l.
  - now rewrite (@template_throws rt _ _ Hs).
Qed.

(** C6, amended.  A request whose method is truthy, is none of the case
    labels and converts to the string [text] is answered with status 400
    and the body [{error: 'Unknown method: <text>'}], without any client
    call.  A [tools/call] request whose tool name is none of the six tools
    and converts to the string [text] is answered with status 500 and an
    error whose message is [Unknown tool: <text>] (with code -32603 when the
    request has a [jsonrpc] field).  Both messages contain the offending
    name.  A method or a tool name that cannot be converted to a string is
    answered with status 500 and the [TypeError] of the conversion. *)
Theorem unknown_method_400_unknown_tool_500 {rt : Runtime}
  (c : TrelloClient) (body : value) :
  truthy (get body "method") = true ->
  (unknown_name method_names (get body "method") ->
   match to_string (get body "method") with
   | Some text =>
       sent (post_mcp c body)
       = [(400, VObj [("error", VStr ("Unknown method: " ++ text))])]
       /\ reported_as 400 text (post_mcp c body)
   | None =>
       sent (post_mcp c body) = [(500, error_body body cannot_convert)]
   end
   /\ calls (handle c body) = [])
  /\ (get body "method" = VStr "tools/call" ->
      unknown_name tool_names (toolName body) ->
      match to_string (toolName body) with
      | Some text =>
          sent (post_mcp c body)
          = [(500, error_body body (Error ("Unknown tool: " ++ text)))]
          /\ reported_as 500 text (post_mcp c body)
          /\ (truthy (get body "jsonrpc") = true ->
              get (get (error_body body (Error ("Unknown tool: " ++ text)))
                       "error") "code" = VNum internal_error)
      | None =>
          sent (post_mcp c body) = [(500, error_body body cannot_convert)]
      end
      /\ calls (handle c body) = []).
Proof.
  intros Ht. split.
  - intros Hu. destruct (to_string (get body "method")) as [text|] eqn:Hs.
    + pose proof (handle_unknown_method c body text Ht Hu Hs) as Hh.
      assert (Hsent : sent (post_mcp c body) = [(400, unknown_method text)]).
      { rewrite (post_mcp_respond c body 400 (unknown_method text));
          rewrite ?Hh; reflexivity. }
      split; [|now rewrite Hh]. split; [exact Hsent|].
      exists (unknown_method text), ("Unknown method: " ++ text).
      split; [exact Hsent|]. split; [reflexivity|apply includes_suffix].
    + pose proof (handle_unprintable_method c body Ht Hs) as Hh.
      split; [|now rewrite Hh].
      rewrite (post_mcp_throw c body cannot_convert); rewrite ?Hh; reflexivity.
  - intros Hm Hu. pose proof (handle_unknown_tool c body Hm Hu) as Hh.
    destruct (to_string (toolName body)) as [text|] eqn:Hs.
    + set (error := Error ("Unknown tool: " ++ text)) in *.
      assert (Hsent : sent (post_mcp c body) = [(500, error_body body error)]).
      { rewrite (post_mcp_throw c body error); rewrite ?Hh; reflexivity. }
      split; [|now rewrite Hh]. split; [exact Hsent|]. split.
      * exists (error_body body error), ("Unknown tool: " ++ text).
        split; [exact Hsent|]. split; [|apply includes_suffix].
        unfold error_body. destruct (truthy (get body "jsonrpc")); reflexivity.
      * intros Hj. unfold error_body. rewrite Hj. reflexivity.
    + split; [|now rewrite Hh].
      rewrite (post_mcp_throw c body cannot_convert); rewrite ?Hh; reflexivity.
Qed.

Lemma unknown_method_400_unknown_tool_500_witness :
  sent (post_mcp sample_client (rpc_request (VNum 1) "delete_board" obj_empty))
  = [(400, VObj [("error", VStr "Unknown method: delete_board")])]
  /\ sent (post_mcp sample_client
             (rpc_request (VNum 1) "tools/call" (tool_params "nope" obj_empty)))
     = [(500, VObj [("jsonrpc", VStr "2.0");
                    ("error", VObj [("code", VNum internal_error);
                                    ("message", VStr "Unknown tool: nope")]);
                    ("id", VNum 1)])].
Proof.
  split.
  - refine (proj1 (proj1 (proj1 (unknown_method_400_unknown_tool_500 sample_client
                    (rpc_request (VNum 1) "delete_board" obj_empty) eq_refl) _))).
    intros s Hs Hin. injection Hs as <-.
    vm_compute in Hin. intuition discriminate.
  - refine (proj1 (proj1 (proj2 (unknown_method_400_unknown_tool_500 sample_client
                    (rpc_request (VNum 1) "tools/call" (tool_params "nope" obj_empty))
                    eq_refl) eq_refl _))).
    intros s Hs Hin. injection Hs as <-.
    vm_compute in Hin. intuition discriminate.
Defined.

(** ** A request without a method *)

(** C7 fails as stated: the answer to a bare [{}] carries a [jsonrpc] and
    an [id] field. *)
Lemma missing_method_counterexample :
  ~ (exists b,
        sent (post_mcp sample_client (VObj [])) = [(400, b)]
        /\ ~ has_field b "jsonrpc" /\ ~ has_field b "id").
Proof.
  intros [b [Hsent [Hj _]]]. vm_compute in Hsent.
  injection Hsent as <-. apply Hj. discriminate.
Qed.

(** C7, amended.  A body without a truthy [jsonrpc] field whose [method] is
    missing or empty is answered with status 400 and the body
    [{error: 'Method is required', jsonrpc: '2.0', id: null}]; the handler
    returns at once: no client call, no time spent, nothing thrown. *)
Theorem missing_method_is_rejected_before_dispatch {rt : Runtime}
  (c : TrelloClient) (body : value) :
  truthy (get body "jsonrpc") = false ->
  truthy (get body "method") = false ->
  let answer := VObj [("error", VStr "Method is required");
                      ("jsonrpc", VStr "2.0");
                      ("id", VNull)] in
  handle c body = respond 400 answer
  /\ sent (post_mcp c body) = [(400, answer)]
  /\ calls (handle c body) = []
  /\ has_field answer "jsonrpc" /\ has_field answer "id".
Proof.
  intros Hj Hm answer.
  assert (Hh : handle c body = respond 400 answer).
  { unfold handle, or_else. rewrite Hm. simpl negb. cbv iota.
    rewrite template_string, bind_ret_l.
    unfold method_required, request_id. rewrite Hj. reflexivity. }
  split; [exact Hh|]. split.
  - rewrite (post_mcp_respond c body 400 answer); rewrite ?Hh; reflexivity.
  - split; [now rewrite Hh|]. split; discriminate.
Qed.

Lemma missing_method_is_rejected_before_dispatch_witness :
  sent (post_mcp sample_client (VObj [("method", VStr ""); ("params", obj_empty)]))
  = [(400, VObj [("error", VStr "Method is required");
                 ("jsonrpc", VStr "2.0");
                 ("id", VNull)])].
Proof.
  exact (proj1 (proj2 (missing_method_is_rejected_before_dispatch sample_client
                  (VObj [("method", VStr ""); ("params", obj_empty)])
                  eq_refl eq_refl))).
Defined.

(** ** Board ids *)

(** C8 fails as stated: with an active board selected and no [boardId]
    argument, [get_lists] still calls the client with an undefined board
    id. *)
Lemma board_defaulting_counterexample :
  ~ defaults_board_id client_with_active_board
      (handle client_with_active_board
         (rpc_request (VNum 1) "tools/call" (tool_params "get_lists" obj_empty))).
Proof.
  intros H. unfold defaults_board_id in H. simpl activeBoardId in H.
  specialize (H (mkCall "getLists" [VUndefined]) (or_introl eq_refl)).
  discriminate H.
Qed.

(** C8, amended.  The tools that take a board id ([get_lists],
    [get_cards_by_list_id], [create_card]) pass the [boardId] argument to
    the client as it is, whatever it is and whatever the active board is:
    the one client call carries [toolArguments.boardId] as its board id.
    So when the arguments supply none, the call is made with an undefined
    board id.  Only [get_active_board_info] reads the active board id: when
    it is unset the request is answered with status 400 and
    [{error: 'No active board set'}] without any client call, and otherwise
    the board is asked for under the active id. *)
Theorem board_id_is_passed_as_given {rt : Runtime} (c : TrelloClient) (body : value) :
  ((calls_tool body "get_lists" ->
    calls (handle c body)
    = [mkCall "getLists" [get (toolArguments body) "boardId"]])
   /\ (calls_tool body "get_cards_by_list_id" ->
       calls (handle c body)
       = [mkCall "getCardsByList"
            [get (toolArguments body) "boardId";
             get (toolArguments body) "listId"]])
   /\ (calls_tool body "create_card" ->
       calls (handle c body)
       = [mkCall "addCard"
            [get (toolArguments body) "boardId";
             VObj [("listId", get (toolArguments body) "listId");
                   ("name", get (toolArguments body) "name");
                   ("description", get (toolArguments body) "desc")]]]))
  /\ (get (toolArguments body) "boardId" = VUndefined ->
      (calls_tool body "get_lists" ->
       calls (handle c body) = [mkCall "getLists" [VUndefined]])
      /\ (calls_tool body "get_cards_by_list_id" ->
          calls (handle c body)
          = [mkCall "getCardsByList"
               [VUndefined; get (toolArguments body) "listId"]])
      /\ (calls_tool body "create_card" ->
          calls (handle c body)
          = [mkCall "addCard" [VUndefined; card_of (toolArguments body)]]))
  /\ (get body "method" = VStr "get_active_board_info" ->
      if truthy (activeBoardId c)
      then calls (handle c body) = [mkCall "getBoardById" [activeBoardId c]]
      else handle c body = respond 400 no_active_board
           /\ sent (post_mcp c body) = [(400, no_active_board)]
           /\ calls (handle c body) = []).
Proof.
  assert (Hgiven :
    (calls_tool body "get_lists" ->
     calls (handle c body)
     = [mkCall "getLists" [get (toolArguments body) "boardId"]])
    /\ (calls_tool body "get_cards_by_list_id" ->
        calls (handle c body)
        = [mkCall "getCardsByList"
             [get (toolArguments body) "boardId";
              get (toolArguments body) "listId"]])
    /\ (calls_tool body "create_card" ->
        calls (handle c body)
        = [mkCall "addCard"
             [get (toolArguments body) "boardId"; card_of (toolArguments body)]])).
  { repeat split; intros Hcall; rewrite (handle_tool c body _ Hcall);
      cbn [switch_cases String.eqb Ascii.eqb Bool.eqb].
    - unfold tool_get_lists.
      destruct (getLists c (get (toolArguments body) "boardId")); reflexivity.
    - unfold tool_get_cards_by_list_id.
      destruct (getCardsByList c (get (toolArguments body) "boardId")
                  (get (toolArguments body) "listId")); reflexivity.
    - unfold tool_create_card.
      destruct (addCard c (get (toolArguments body) "boardId")
                  (card_of (toolArguments body))); reflexivity. }
  split; [exact Hgiven|]. split.
  - intros Hb. rewrite Hb in Hgiven. exact Hgiven.
  - intros Hm.
    assert (Hh : handle c body
                 = if negb (truthy (activeBoardId c))
                   then respond 400 no_active_board
                   else board <- await (mkCall "getBoardById" [activeBoardId c])
                                       (getBoardById c (activeBoardId c)) ;;
                        ret (Board.to_value board)).
    { rewrite (handle_legacy c body _ Hm); [reflexivity|discriminate]. }
    destruct (truthy (activeBoardId c)); simpl negb in Hh; cbv iota in Hh.
    + rewrite Hh. destruct (getBoardById c (activeBoardId c)); reflexivity.
    + split; [exact Hh|]. split; [|now rewrite Hh].
      rewrite (post_mcp_respond c body 400 no_active_board);
        rewrite ?Hh; reflexivity.
Qed.

(** A [create_card] call that does supply a board id carries it, with an
    active board selected all the same. *)
Lemma create_card_carries_given_board_id :
  calls (handle client_with_active_board
           (rpc_request (VNum 1) "tools/call"
              (tool_params "create_card"
                 (VObj [("boardId", VStr "b9"); ("listId", VStr "l1");
                        ("name", VStr "Buy milk")]))))
  = [mkCall "addCard"
       [VStr "b9";
        VObj [("listId", VStr "l1"); ("name", VStr "Buy milk");
              ("description", VUndefined)]]].
Proof. reflexivity. Qed.

Lemma board_id_is_passed_as_given_witness :
  calls (handle client_with_active_board
           (rpc_request (VNum 1) "tools/call" (tool_params "get_lists" obj_empty)))
  = [mkCall "getLists" [VUndefined]]
  /\ sent (post_mcp sample_client
             (simple_request "get_active_board_info" obj_empty))
     = [(400, no_active_board)].
Proof.
  split.
  - exact (proj1 (proj1 (board_id_is_passed_as_given client_with_active_board
             (rpc_request (VNum 1) "tools/call" (tool_params "get_lists" obj_empty))))
             (conj eq_refl eq_refl)).
  - exact (proj1 (proj2 (proj2 (proj2 (board_id_is_passed_as_given sample_client
             (simple_request "get_active_board_info" obj_empty))) eq_refl))).
Defined.

(** ** [search] without a query *)

(** C10 fails as stated: when the board listing is rejected, the handler
    never reaches the lowercasing, and what it throws is the client's
    error. *)
Lemma search_without_query_counterexample :
  ~ (exists message,
        out (handle failing_client
               (rpc_request (VNum 1) "tools/call" (tool_params "search" obj_empty)))
        = Throw (TypeError message)).
Proof. intros [message H]. vm_compute in H. discriminate H. Qed.

Lemma post_mcp_failure {rt : Runtime} (c : TrelloClient) (body : value) :
  (exists error, out (handle c body) = Throw error) \/ out (handle c body) = Hang ->
  exists b,
    sent (post_mcp c body) = [(500, b)]
    /\ (truthy (get body "jsonrpc") = true ->
        get (get b "error") "code" = VNum internal_error).
Proof.
  intros [[error Ho]|Ho].
  - destruct (N.lt_ge_cases (elapsed (handle c body)) request_timeout) as [Ht|Ht].
    + rewrite (post_mcp_throw c body error Ho Ht).
      exists (error_body body error). split; [reflexivity|].
      intros Hj. unfold error_body. rewrite Hj. reflexivity.
    + rewrite (post_mcp_late_throw c body error Ho Ht).
      exists (timeout_body body). split; reflexivity.
  - rewrite (post_mcp_hang c body Ho).
    exists (timeout_body body). split; reflexivity.
Qed.

(** C10, amended.  A [tools/call] of [search] whose arguments have no
    [query]: when the board listing resolves, the handler throws the type
    error of calling [toLowerCase] on [undefined]; when the listing is
    rejected, it throws the client's error instead.  Whatever the listing
    does, the one response written has status 500, never 400, and for a
    request with a [jsonrpc] field its error code is -32603. *)
Theorem search_without_query_is_a_500 {rt : Runtime}
  (c : TrelloClient) (body : value) :
  calls_tool body "search" ->
  get (toolArguments body) "query" = VUndefined ->
  (forall t boards, listBoards c = Resolves t boards ->
                    out (handle c body) = Throw undefined_toLowerCase)
  /\ (forall t error, listBoards c = Rejects t error ->
                      out (handle c body) = Throw error)
  /\ exists b,
       sent (post_mcp c body) = [(500, b)]
       /\ (truthy (get body "jsonrpc") = true ->
           get (get b "error") "code" = VNum internal_error).
Proof.
  intros Hcall Hq.
  assert (Hh : handle c body = tool_search c (toolArguments body)).
  { rewrite (handle_tool c body _ Hcall). reflexivity. }
  rewrite Hh. unfold tool_search. rewrite Hq.
  split; [|split].
  - intros t boards Hl. rewrite Hl. reflexivity.
  - intros t error Hl. rewrite Hl. reflexivity.
  - apply post_mcp_failure. rewrite Hh. unfold tool_search. rewrite Hq.
    destruct (listBoards c) as [t boards|t error|].
    + left. now exists undefined_toLowerCase.
    + left. now exists error.
    + right. reflexivity.
Qed.

Lemma search_without_query_is_a_500_witness :
  out (handle sample_client
         (rpc_request (VNum 1) "tools/call" (tool_params "search" obj_empty)))
  = Throw undefined_toLowerCase.
Proof.
  exact (proj1 (search_without_query_is_a_500 sample_client
                  (rpc_request (VNum 1) "tools/call" (tool_params "search" obj_empty))
                  (conj eq_refl eq_refl) eq_refl)
               120%N [sav_client; projet_x] eq_refl).
Defined.

(** ** The id of the response *)

Lemma success_body_id {rt : Runtime} (body result : value) :
  truthy (get body "jsonrpc") = true ->
  get (success_body body result) "id" = get body "id".
Proof.
  intros Hj. unfold success_body, request_id. rewrite Hj. reflexivity.
Qed.

(** The success path echoes the id as it is, whatever its value. *)
Lemma success_echoes_id {rt : Runtime} (c : TrelloClient) (body result : value) :
  truthy (get body "jsonrpc") = true ->
  out (handle c body) = Done result ->
  (elapsed (handle c body) < request_timeout)%N ->
  echoes_id body (post_mcp c body).
Proof.
  intros Hj Ho Ht status b. rewrite (post_mcp_done c body result Ho Ht).
  simpl. intros [H|[]]. injection H as _ <-. now apply success_body_id.
Qed.

(** The [catch] block and the timer send [req.body.id || null]. *)
Lemma error_body_id {rt : Runtime} (body : value) (error : exn) :
  truthy (get body "jsonrpc") = true ->
  get (error_body body error) "id" = or_else (get body "id") VNull
  /\ get (timeout_body body) "id" = or_else (get body "id") VNull.
Proof.
  intros Hj. unfold error_body. rewrite Hj. split; reflexivity.
Qed.

(** C1.  The request [{jsonrpc: '2.0', method: 'tools/call',
    params: {name: 'nope', arguments: {}}, id: 0}] is answered with an
    error envelope whose [id] is [null], not the [0] of the request. *)
Theorem error_envelope_replaces_zero_id :
  let request := rpc_request (VNum 0) "tools/call" (tool_params "nope" obj_empty) in
  get request "id" = VNum 0
  /\ sent (post_mcp sample_client request)
     = [(500, VObj [("jsonrpc", VStr "2.0");
                    ("error", VObj [("code", VNum internal_error);
                                    ("message", VStr "Unknown tool: nope")]);
                    ("id", VNull)])]
  /\ ~ echoes_id request (post_mcp sample_client request).
Proof.
  split; [reflexivity|]. split; [reflexivity|].
  intros H.
  specialize (H 500 (error_body (rpc_request (VNum 0) "tools/call"
                                   (tool_params "nope" obj_empty))
                                (Error "Unknown tool: nope"))
                (or_introl eq_refl)).
  discriminate H.
Qed.

(** The same loss in the timer's response, for the empty-string id. *)
Lemma timeout_envelope_replaces_empty_id :
  let request := rpc_request (VStr "") "get_my_cards" obj_empty in
  sent (post_mcp silent_client request) = [(500, timeout_body request)]
  /\ get (timeout_body request) "id" = VNull.
Proof. split; reflexivity. Qed.

(** ** Early returns happen before any [await] *)

Create HintDb runs.

Section Immediate.

Context {rt : Runtime}.
Context {A B : Type}.

Lemma never_ret (a : A) : never_responds (ret a).
Proof. intros s b; discriminate. Qed.

Lemma never_throw (e : exn) : never_responds (@throw A e).
Proof. intros s b; discriminate. Qed.

Lemma never_await (call : Call) (p : settle A) : never_responds (await call p).
Proof. intros s b; destruct p; discriminate. Qed.

Lemma never_await_race (call : Call) (p : settle A) (budget : N) (e : exn) :
  never_responds (await_race call p budget e).
Proof.
  intros s b; destruct p as [t a|t e'|]; simpl;
    try destruct (t <? budget)%N; discriminate.
Qed.

Lemma never_bind (m : run A) (k : A -> run B) :
  never_responds m -> (forall a, never_responds (k a)) -> never_responds (bind m k).
Proof.
  intros Hm Hk s b. unfold bind.
  destruct (out m) as [a|e|s' b'|] eqn:E; simpl; try discriminate.
  - apply Hk.
  - exfalso. exact (Hm s' b' E).
Qed.

Lemma never_try_catch (m : run A) (h : exn -> run A) :
  never_responds m -> (forall e, never_responds (h e)) ->
  never_responds (try_catch m h).
Proof.
  intros Hm Hh s b. unfold try_catch.
  destruct (out m) as [a|e|s' b'|] eqn:E; simpl;
    [congruence | apply Hh | exfalso; exact (Hm s' b' E) | congruence].
Qed.

Lemma never_at_once (r : run A) : never_responds r -> responds_at_once r.
Proof. intros H s b Ho. exfalso. exact (H s b Ho). Qed.

Lemma respond_at_once (status : nat) (b : value) :
  responds_at_once (@respond A status b).
Proof. intros s b' H. injection H as <- <-. reflexivity. Qed.

(** An early return of [m] followed by code that has none. *)
Lemma at_once_bind (m : run A) (k : A -> run B) :
  responds_at_once m -> (forall a, never_responds (k a)) ->
  responds_at_once (bind m k).
Proof.
  intros Hm Hk s b. unfold bind.
  destruct (out m) as [a|e|s' b'|] eqn:E; simpl; try discriminate.
  - intros H. exfalso. exact (Hk a s b H).
  - intros H. injection H as <- <-. now rewrite (Hm s' b' E).
Qed.

(** An early return of [m] seen through the code that follows it. *)
Lemma respond_bind_never (m : run A) (k : A -> run B) (s : nat) (b : value) :
  (forall a, never_responds (k a)) ->
  out (bind m k) = Respond s b -> out m = Respond s b.
Proof.
  intros Hk. unfold bind.
  destruct (out m) as [a|e|s' b'|] eqn:E; simpl; intros H;
    [exfalso; exact (Hk a s b H) | discriminate H
    | now injection H as <- <- | discriminate H].
Qed.

Lemma switch_cases_all (P : A -> Prop) (s : string) (cases : list (string * A))
      (d : A) :
  Forall (fun kv => P (snd kv)) cases -> P d -> P (switch_cases s cases d).
Proof.
  induction 1 as [|[k x] rest Hx _ IH]; simpl; intros Hd; [exact Hd|].
  destruct (String.eqb s k); auto.
Qed.

End Immediate.

Section ImmediateTemplates.

Context {rt : Runtime}.
Context {A : Type}.

Lemma never_template (prefix : string) (v : value) :
  never_responds (template prefix v).
Proof. unfold template. intros s b. destruct (to_string v); discriminate. Qed.

(** A template literal takes no time and makes no call: what follows it
    is as immediate with it as without. *)
Lemma at_once_after_template (prefix : string) (v : value) (k : string -> run A) :
  (forall text, responds_at_once (k text)) ->
  responds_at_once (bind (template prefix v) k).
Proof.
  intros Hk. unfold template. destruct (to_string v) as [text|].
  - rewrite bind_ret_l. apply Hk.
  - intros s b H. discriminate H.
Qed.

Lemma respond_after_template (prefix : string) (v : value) (k : string -> run A)
      (s : nat) (b : value) :
  out (bind (template prefix v) k) = Respond s b ->
  exists text, to_string v = Some text /\ out (k (prefix ++ text)) = Respond s b.
Proof.
  unfold template. destruct (to_string v) as [text|].
  - rewrite bind_ret_l. intros H. now exists text.
  - intros H. discriminate H.
Qed.

End ImmediateTemplates.

#[local] Hint Resolve never_ret never_throw never_await never_await_race
  never_bind never_try_catch never_template : runs.

Lemma never_call_toLowerCase {rt : Runtime} (expr : string) (recv : value) :
  never_responds (call_toLowerCase expr recv).
Proof. destruct recv; simpl; auto with runs. Qed.

Lemma never_tools_call {rt : Runtime} (c : TrelloClient) (params : value) :
  never_responds (tools_call c params).
Proof.
  unfold tools_call. apply never_bind; [auto with runs|]. intros _.
  unfold switch.
  destruct (get params "name"); auto with runs.
  apply switch_cases_all; [|auto with runs].
  repeat (apply Forall_cons || apply Forall_nil); simpl;
    unfold tool_search, tool_fetch, tool_list_boards, tool_get_cards_by_list_id,
           tool_get_lists, tool_create_card, throw_no_resource;
    auto 6 using never_call_toLowerCase with runs.
  apply never_try_catch; [auto with runs|]. intros _.
  apply never_try_catch; [|auto with runs].
  apply never_bind; [auto with runs|]. intros [|l ls]; auto with runs.
Qed.

Lemma never_log_response {rt : Runtime} (method result : value) :
  never_responds (_ <- template "MCP Response: " method ;; ret result).
Proof. auto with runs. Qed.

(** Every early return of the handler is immediate: it comes before any
    client call and at time zero, so before the timer. *)
Lemma handle_responds_at_once {rt : Runtime} (c : TrelloClient) (body : value) :
  responds_at_once (handle c body).
Proof.
  unfold handle. apply at_once_after_template. intros _.
  destruct (negb (truthy (get body "method"))); [apply respond_at_once|].
  apply at_once_bind; [|intros result; apply never_log_response].
  assert (Hd : responds_at_once (respond_unknown_method (get body "method"))).
  { unfold respond_unknown_method. apply at_once_after_template.
    intros text. apply respond_at_once. }
  unfold switch. destruct (get body "method"); try exact Hd.
  apply switch_cases_all; [|exact Hd].
  repeat (apply Forall_cons || apply Forall_nil); simpl; unfold forward;
    try (apply never_at_once; auto using never_tools_call with runs; fail);
    try apply respond_at_once.
  destruct (negb (truthy (activeBoardId c))); [apply respond_at_once|].
  apply never_at_once; auto with runs.
Qed.

(** ** One response per request *)

Lemma post_mcp_cases {rt : Runtime} (c : TrelloClient) (body : value) :
  let r := handle c body in
  (exists result, out r = Done result /\ (elapsed r < request_timeout)%N
                  /\ post_mcp c body = mkRes true [(200, success_body body result)] [])
  \/ (exists error, out r = Throw error /\ (elapsed r < request_timeout)%N
                    /\ post_mcp c body = mkRes true [(500, error_body body error)] [])
  \/ (exists status b, out r = Respond status b /\ r = respond status b
                       /\ post_mcp c body = mkRes true [(status, b)] [])
  \/ (((exists result, out r = Done result /\ (request_timeout <= elapsed r)%N)
       \/ out r = Hang)
      /\ post_mcp c body = mkRes true [(500, timeout_body body)] [])
  \/ (exists error, out r = Throw error /\ (request_timeout <= elapsed r)%N
                    /\ post_mcp c body
                       = mkRes true [(500, timeout_body body)] [headers_sent_error]).
Proof.
  intros r. unfold r.
  destruct (out (handle c body)) as [result|error|status b|] eqn:Ho.
  - destruct (N.lt_ge_cases (elapsed (handle c body)) request_timeout) as [Ht|Ht].
    + left. exists result. now rewrite (post_mcp_done c body result Ho Ht).
    + right. right. right. left.
      rewrite (post_mcp_late_done c body result Ho Ht). split; [|reflexivity].
      left. now exists result.
  - destruct (N.lt_ge_cases (elapsed (handle c body)) request_timeout) as [Ht|Ht].
    + right. left. exists error. now rewrite (post_mcp_throw c body error Ho Ht).
    + right. right. right. right. exists error.
      now rewrite (post_mcp_late_throw c body error Ho Ht).
  - pose proof (handle_responds_at_once c body status b Ho) as Hh.
    right. right. left. exists status, b. split; [reflexivity|]. split; [exact Hh|].
    rewrite (post_mcp_respond c body status b Ho); [reflexivity|].
    rewrite Hh. reflexivity.
  - right. right. right. left. rewrite (post_mcp_hang c body Ho). auto.
Qed.

(** C9.  For every request exactly one response body is written.  When the
    timer fires before the handler has sent anything (the handler never
    ends, or ends three seconds after the request or later), the body
    written is the timer's JSON-RPC error with code -32603, and the later
    end of the handler, be it a result or a caught error, writes nothing.
    When the handler ends before the timer, the body written is the
    handler's own (the result with status 200, the caught error with
    status 500, or an early answer), and the timer writes nothing to the
    response that was sent. *)
Theorem one_body_per_request {rt : Runtime} (c : TrelloClient) (body : value) :
  let r := handle c body in
  List.length (sent (post_mcp c body)) = 1
  /\ ((request_timeout <= elapsed r)%N \/ out r = Hang ->
      sent (post_mcp c body) = [(500, timeout_body body)]
      /\ get (timeout_body body) "jsonrpc" = VStr "2.0"
      /\ get (get (timeout_body body) "error") "code" = VNum (-32603))
  /\ ((elapsed r < request_timeout)%N ->
      match out r with
      | Done result => sent (post_mcp c body) = [(200, success_body body result)]
      | Throw error => sent (post_mcp c body) = [(500, error_body body error)]
      | Respond status b => sent (post_mcp c body) = [(status, b)]
      | Hang => sent (post_mcp c body) = [(500, timeout_body body)]
      end)
  /\ (forall status b, on_timeout body (mkRes true [(status, b)] [])
                       = mkRes true [(status, b)] []).
Proof.
  intros r. unfold r.
  destruct (post_mcp_cases c body)
    as [ [result [Ho [Ht Hp]]]
       | [ [error [Ho [Ht Hp]]]
         | [ [status [b [Ho [Hh Hp]]]]
           | [ [Hlate Hp] | [error [Ho [Ht Hp]]] ] ] ] ];
    rewrite Hp; simpl sent.
  - split; [reflexivity|]. split; [|split; [|reflexivity]].
    + intros [Hle|Hhang]; [lia|congruence].
    + intros _. now rewrite Ho.
  - split; [reflexivity|]. split; [|split; [|reflexivity]].
    + intros [Hle|Hhang]; [lia|congruence].
    + intros _. now rewrite Ho.
  - split; [reflexivity|]. split; [|split; [|reflexivity]].
    + intros [Hle|Hhang]; [|congruence].
      rewrite Hh in Hle. simpl in Hle. unfold request_timeout in Hle. lia.
    + intros _. now rewrite Ho.
  - split; [reflexivity|]. split; [auto|]. split; [|reflexivity].
    intros Hlt. destruct Hlate as [[result [Ho Hle]]|Ho]; [lia|now rewrite Ho].
  - split; [reflexivity|]. split; [auto|]. split; [|reflexivity].
    intros Hlt. lia.
Qed.

Lemma one_body_per_request_witness :
  let request := rpc_request (VNum 1) "get_my_cards" obj_empty in
  elapsed (handle slow_failing_client request) = 5000%N
  /\ out (handle slow_failing_client request) = Throw (Error "socket hang up")
  /\ sent (post_mcp slow_failing_client request) = [(500, timeout_body request)].
Proof.
  split; [reflexivity|]. split; [reflexivity|].
  refine (proj1 (proj1 (proj2 (one_body_per_request slow_failing_client
                                 (rpc_request (VNum 1) "get_my_cards" obj_empty))) _)).
  left. vm_compute. discriminate.
Defined.

(** X19.  A failure of the handler after the timer has answered is not
    reported to the caller: the [catch] block's send is refused, and the
    error of that send leaves the handler, where nothing catches it.  In
    every other run nothing is left uncaught. *)
Theorem late_failure_escapes_the_catch_block {rt : Runtime}
  (c : TrelloClient) (body : value) :
  uncaught (post_mcp c body)
  = match out (handle c body) with
    | Throw _ =>
        if (elapsed (handle c body) <? request_timeout)%N then []
        else [Error "Cannot set headers after they are sent to the client"]
    | _ => []
    end.
Proof.
  destruct (post_mcp_cases c body)
    as [ [result [Ho [Ht Hp]]]
       | [ [error [Ho [Ht Hp]]]
         | [ [status [b [Ho [Hh Hp]]]]
           | [ [Hlate Hp] | [error [Ho [Ht Hp]]] ] ] ] ];
    rewrite Hp; simpl uncaught.
  - now rewrite Ho.
  - rewrite Ho. apply N.ltb_lt in Ht. now rewrite Ht.
  - now rewrite Ho.
  - destruct Hlate as [[result [Ho _]]|Ho]; now rewrite Ho.
  - rewrite Ho. apply N.ltb_ge in Ht. now rewrite Ht.
Qed.

Lemma late_failure_example :
  let request := rpc_request (VNum 1) "get_my_cards" obj_empty in
  sent (post_mcp slow_failing_client request) = [(500, timeout_body request)]
  /\ uncaught (post_mcp slow_failing_client request) = [headers_sent_error].
Proof. split; reflexivity. Qed.

(** ** Every response of [POST /mcp] *)

(** An early return sends one of four bodies. *)
Lemma handle_early_answer {rt : Runtime} (c : TrelloClient) (body : value)
      (status : nat) (b : value) :
  out (handle c body) = Respond status b ->
  if truthy (get body "method")
  then early_answer_of_switch status b
  else status = 400 /\ b = method_required body.
Proof.
  unfold handle. intros H.
  apply respond_after_template in H as [logged [_ H]].
  destruct (truthy (get body "method")); simpl negb in H; cbv iota in H.
  - apply respond_bind_never in H; [|intros result; apply never_log_response].
    assert (Hd : forall s' b',
               out (respond_unknown_method (get body "method")) = Respond s' b' ->
               early_answer_of_switch s' b').
    { intros s' b' H'. unfold respond_unknown_method in H'.
      apply respond_after_template in H' as [text [_ H']].
      injection H' as <- <-. left. split; [reflexivity|]. now exists text. }
    revert H. unfold switch. destruct (get body "method"); try apply Hd.
    revert status b.
    apply (switch_cases_all
             (fun r => forall status b, out r = Respond status b ->
                                        early_answer_of_switch status b));
      [|exact Hd].
    repeat (apply Forall_cons || apply Forall_nil); simpl; unfold forward;
      try (intros s' b' H; exfalso; revert H;
           (apply never_ret || apply never_await || apply never_tools_call
            || (apply never_bind; auto with runs)); fail).
    + destruct (negb (truthy (activeBoardId c))).
      * intros s' b' H. injection H as <- <-. right. left. now split.
      * intros s' b' H. exfalso. revert H. apply never_bind; auto with runs.
    + intros s' b' H. injection H as <- <-. right. right. now split.
  - injection H as <- <-. now split.
Qed.

(** What a response of [POST /mcp] can be: the timer's error, the success
    body with status 200, the [catch] block's error with status 500, or one
    of the early answers. *)
Lemma sent_bodies {rt : Runtime} (c : TrelloClient) (body : value)
      (status : nat) (b : value) :
  In (status, b) (sent (post_mcp c body)) ->
  (status = 500 /\ b = timeout_body body)
  \/ (status = 200 /\ exists result, b = success_body body result)
  \/ (status = 500 /\ exists error, b = error_body body error)
  \/ early_answer body status b.
Proof.
  destruct (post_mcp_cases c body)
    as [ [result [Ho [Ht Hp]]]
       | [ [error [Ho [Ht Hp]]]
         | [ [s' [b' [Ho [Hh Hp]]]]
           | [ [Hlate Hp] | [error [Ho [Ht Hp]]] ] ] ] ];
    rewrite Hp; simpl; intros [H|[]]; injection H as <- <-.
  - right. left. split; [reflexivity|now exists result].
  - right. right. left. split; [reflexivity|now exists error].
  - right. right. right.
    pose proof (handle_early_answer c body s' b' Ho) as He.
    unfold early_answer. destruct (truthy (get body "method")); auto.
  - now left.
  - now left.
Qed.

Lemma early_answer_fields (body : value) (status : nat) (b : value) :
  early_answer body status b ->
  (status = 200 \/ status = 400)
  /\ ~ has_field b "result"
  /\ (early_answer_of_switch status b ->
      ~ has_field b "jsonrpc" /\ ~ has_field b "id").
Proof.
  intros He.
  assert (Hs : early_answer_of_switch status b ->
               (status = 200 \/ status = 400)
               /\ ~ has_field b "result"
               /\ ~ has_field b "jsonrpc" /\ ~ has_field b "id").
  { intros [ [-> [text ->]] | [ [-> ->] | [-> ->] ] ];
      (split; [auto|]); repeat split; intros H; now apply H. }
  destruct He as [[-> ->]|He].
  - split; [auto|]. split; [intros H; now apply H|].
    intros H. now destruct (Hs H) as [_ [_ Hplain]].
  - destruct (Hs He) as [Hst [Hr Hplain]]. auto.
Qed.

(** X1.  Every request to [POST /mcp] is answered, whatever the client
    does: the response object ends with its headers sent, exactly one
    response was written, and its status is 200, 400 or 500. *)
Theorem every_request_is_answered {rt : Runtime} (c : TrelloClient) (body : value) :
  headersSent (post_mcp c body) = true
  /\ List.length (sent (post_mcp c body)) = 1
  /\ forall status b, In (status, b) (sent (post_mcp c body)) ->
                      status = 200 \/ status = 400 \/ status = 500.
Proof.
  assert (Hone : headersSent (post_mcp c body) = true
                 /\ List.length (sent (post_mcp c body)) = 1).
  { destruct (post_mcp_cases c body)
      as [ [result [Ho [Ht Hp]]]
         | [ [error [Ho [Ht Hp]]]
           | [ [s' [b' [Ho [Hh Hp]]]]
             | [ [Hlate Hp] | [error [Ho [Ht Hp]]] ] ] ] ];
      rewrite Hp; split; reflexivity. }
  destruct Hone as [Hsent Hlen].
  split; [exact Hsent|]. split; [exact Hlen|].
  intros status b Hin.
  destruct (sent_bodies c body status b Hin)
    as [ [-> _] | [ [-> _] | [ [-> _] | Hearly ] ] ]; auto.
  destruct (early_answer_fields body status b Hearly) as [[->| ->] _]; auto.
Qed.

(** X2.  When the handler has not ended three seconds after the request
    (an awaited call is still pending, or settles later), the first
    response is the timer's: status 500 and the JSON-RPC error
    [Request timeout] with code -32603, in that shape even for a request
    without a [jsonrpc] field.  It is the only response written, whatever
    the handler does afterwards (the late result is dropped). *)
Theorem timeout_answers_first {rt : Runtime} (c : TrelloClient) (body : value) :
  (request_timeout <= elapsed (handle c body))%N \/ out (handle c body) = Hang ->
  sent (post_mcp c body) = [(500, timeout_body body)]
  /\ get (timeout_body body) "jsonrpc" = VStr "2.0"
  /\ get (get (timeout_body body) "error") "code" = VNum internal_error
  /\ error_message (timeout_body body) = VStr "Request timeout".
Proof.
  intros Hlate.
  assert (Hs : sent (post_mcp c body) = [(500, timeout_body body)]).
  { destruct (post_mcp_cases c body)
      as [ [result [Ho [Ht Hp]]]
         | [ [error [Ho [Ht Hp]]]
           | [ [s' [b' [Ho [Hh Hp]]]]
             | [ [_ Hp] | [error [Ho [Ht Hp]]] ] ] ] ];
      try (rewrite Hp; reflexivity);
      exfalso; destruct Hlate as [Hle|Hhang]; try congruence; try lia.
    rewrite Hh in Hle. simpl in Hle. unfold request_timeout in Hle. lia. }
  rewrite Hs. auto.
Qed.

Lemma timeout_answers_first_witness :
  sent (post_mcp silent_client (simple_request "get_my_cards" obj_empty))
  = [(500, timeout_body (simple_request "get_my_cards" obj_empty))].
Proof.
  exact (proj1 (timeout_answers_first silent_client
                  (simple_request "get_my_cards" obj_empty) (or_intror eq_refl))).
Defined.

(** X3.  No response of [POST /mcp] carries both a [result] and an
    [error]. *)
Theorem never_result_and_error {rt : Runtime} (c : TrelloClient) (body : value) :
  forall status b,
    In (status, b) (sent (post_mcp c body)) ->
    ~ (has_field b "result" /\ has_field b "error").
Proof.
  intros status b Hin [Hr He].
  destruct (sent_bodies c body status b Hin)
    as [ [_ ->] | [ [_ [result ->] ] | [ [_ [error ->] ] | Hearly ] ] ].
  - now apply Hr.
  - apply He. unfold success_body.
    destruct (truthy (get body "jsonrpc")); reflexivity.
  - apply Hr. unfold error_body.
    destruct (truthy (get body "jsonrpc")); reflexivity.
  - destruct (early_answer_fields body status b Hearly) as [_ [Hno _]].
    exact (Hno Hr).
Qed.

Lemma never_result_and_error_witness :
  ~ (has_field (VObj [("result", VNull)]) "result"
     /\ has_field (VObj [("result", VNull)]) "error").
Proof.
  apply (never_result_and_error sample_client
           (simple_request "get_my_cards" obj_empty)
           200 (VObj [("result", VNull)])).
  left. reflexivity.
Defined.

(** X4.  A request without a [jsonrpc] field, with a method, that the
    handler ends before the timer fires, gets a plain body: no response
    carries a [jsonrpc] or an [id] field. *)
Theorem simple_format_gets_plain_body {rt : Runtime}
  (c : TrelloClient) (body : value) :
  truthy (get body "jsonrpc") = false ->
  truthy (get body "method") = true ->
  (elapsed (handle c body) < request_timeout)%N ->
  out (handle c body) <> Hang ->
  sent (post_mcp c body) <> []
  /\ forall status b,
       In (status, b) (sent (post_mcp c body)) ->
       ~ has_field b "jsonrpc" /\ ~ has_field b "id".
Proof.
  intros Hj Hm Ht Hh.
  assert (Hplain : forall b, (exists result, b = success_body body result)
                             \/ (exists error, b = error_body body error) ->
                             ~ has_field b "jsonrpc" /\ ~ has_field b "id").
  { intros b [ [r ->] | [e ->] ];
      unfold success_body, error_body, has_field; rewrite ?Hj;
      split; intros H; now apply H. }
  destruct (out (handle c body)) as [result|error|s' b'|] eqn:Ho.
  - rewrite (post_mcp_done c body result Ho Ht). split; [discriminate|].
    simpl. intros status b [H|[]]. injection H as _ <-. apply Hplain. eauto.
  - rewrite (post_mcp_throw c body error Ho Ht). split; [discriminate|].
    simpl. intros status b [H|[]]. injection H as _ <-. apply Hplain. eauto.
  - rewrite (post_mcp_respond c body s' b' Ho Ht). split; [discriminate|].
    simpl. intros status b [H|[]]. injection H as <- <-.
    pose proof (handle_early_answer c body s' b' Ho) as He. rewrite Hm in He.
    apply (early_answer_fields body s' b'); [now right|exact He].
  - contradiction.
Qed.

Lemma simple_format_gets_plain_body_witness :
  ~ has_field (VObj [("result", VNull)]) "jsonrpc"
  /\ ~ has_field (VObj [("result", VNull)]) "id".
Proof.
  apply (fun H1 H2 =>
           proj2 (simple_format_gets_plain_body sample_client
                    (simple_request "get_my_cards" obj_empty)
                    eq_refl eq_refl H1 H2)
                 200 (VObj [("result", VNull)])).
  - vm_compute. reflexivity.
  - vm_compute. discriminate.
  - left. reflexivity.
Defined.

(** ** More on the tools *)

(** X5.  A [tools/call] of [list_boards] is always answered with status
    200, by exactly one response and after one call of [listBoards],
    within two seconds: it never throws, never hangs and never runs into
    the request timer, whatever the client does. *)
Theorem list_boards_always_answers_200 {rt : Runtime}
  (c : TrelloClient) (body : value) :
  calls_tool body "list_boards" ->
  exists result,
    out (handle c body) = Done result
    /\ (elapsed (handle c body) <= tool_timeout)%N
    /\ calls (handle c body) = [mkCall "listBoards" []]
    /\ sent (post_mcp c body) = [(200, success_body body result)].
Proof.
  intros Hcall.
  assert (Hh : handle c body = tool_list_boards c).
  { rewrite (handle_tool c body _ Hcall). reflexivity. }
  assert (H : exists result,
             out (tool_list_boards c) = Done result
             /\ (elapsed (tool_list_boards c) <= tool_timeout)%N
             /\ calls (tool_list_boards c) = [mkCall "listBoards" []]).
  { unfold tool_list_boards, await_race.
    destruct (listBoards c) as [t boards|t e|];
      try destruct (N.ltb_spec t tool_timeout);
      eexists; cbn; repeat split; unfold tool_timeout in *; lia. }
  destruct H as [result [Ho [Ht Hc]]]. exists result. rewrite Hh.
  repeat split; auto.
  rewrite <- Hh in Ho, Ht.
  rewrite (post_mcp_done c body result Ho); [reflexivity|].
  unfold tool_timeout, request_timeout in *. lia.
Qed.

Lemma list_boards_always_answers_200_witness :
  exists result,
    sent (post_mcp slow_failing_client
            (rpc_request (VNum 4) "tools/call" (tool_params "list_boards" obj_empty)))
    = [(200, success_body
               (rpc_request (VNum 4) "tools/call"
                  (tool_params "list_boards" obj_empty)) result)].
Proof.
  destruct (list_boards_always_answers_200 slow_failing_client
              (rpc_request (VNum 4) "tools/call" (tool_params "list_boards" obj_empty))
              (conj eq_refl eq_refl))
    as [result [_ [_ [_ H]]]].
  now exists result.
Defined.

Lemma In_firstn {A} (n : nat) (l : list A) (x : A) : In x (firstn n l) -> In x l.
Proof.
  intros H. rewrite <- (firstn_skipn n l). apply in_or_app. now left.
Qed.

(** X6.  When the listing resolves within the budget, the [list_boards]
    tool returns the JSON text of the array of the entries
    [{id, name, url}], made of the board's id, name and short url, of the
    first five open boards in listing order: at most five entries, never a
    closed board, and all open boards when there are at most five. *)
Theorem list_boards_shows_first_open_boards {rt : Runtime}
  (c : TrelloClient) (body : value) (boards : list Board.t) (t : N) :
  calls_tool body "list_boards" ->
  listBoards c = Resolves t boards ->
  (t < tool_timeout)%N ->
  let open := filter (fun b => negb (Board.closed b)) boards in
  let shown := firstn 5 open in
  out (handle c body)
  = Done (JSON_stringify
            (VArr (map (fun board =>
                          VObj [("id", VStr (Board.id board));
                                ("name", VStr (Board.name board));
                                ("url", VStr (Board.shortUrl board))])
                       shown)))
  /\ List.length shown <= 5
  /\ (forall b, In b shown -> In b boards /\ Board.closed b = false)
  /\ (exists hidden, open = (shown ++ hidden)%list)
  /\ (List.length open <= 5 -> shown = open).
Proof.
  intros Hcall Hl Ht open shown. split; [|split; [|split; [|split]]].
  - rewrite (handle_tool c body _ Hcall).
    cbn [switch_cases String.eqb Ascii.eqb Bool.eqb].
    unfold tool_list_boards, await_race. rewrite Hl.
    apply N.ltb_lt in Ht. rewrite Ht. reflexivity.
  - apply firstn_le_length.
  - intros b Hin. apply In_firstn in Hin. unfold open in Hin.
    apply filter_In in Hin. destruct Hin as [Hin Hopen].
    split; [exact Hin|]. now destruct (Board.closed b).
  - exists (skipn 5 open). symmetry. apply firstn_skipn.
  - intros Hlen. now apply firstn_all2.
Qed.

Lemma list_boards_shows_first_open_boards_witness :
  out (handle sample_client
         (rpc_request (VNum 4) "tools/call" (tool_params "list_boards" obj_empty)))
  = Done (JSON_stringify (VArr [recent_entry sav_client])).
Proof.
  exact (proj1 (list_boards_shows_first_open_boards sample_client
                  (rpc_request (VNum 4) "tools/call"
                     (tool_params "list_boards" obj_empty))
                  [sav_client; projet_x] 120
                  (conj eq_refl eq_refl) eq_refl eq_refl)).
Defined.

(** X7.  The [search] tool reads its query up to letter case: two calls
    whose queries have the same lower-case form (so those that differ only
    in the case of ASCII letters) run alike, with the same client call and
    the same result. *)
Theorem search_ignores_query_case {rt : Runtime}
  (c : TrelloClient) (body1 body2 : value) (q1 q2 : string) :
  calls_tool body1 "search" ->
  calls_tool body2 "search" ->
  get (toolArguments body1) "query" = VStr q1 ->
  get (toolArguments body2) "query" = VStr q2 ->
  toLowerCase q1 = toLowerCase q2 ->
  handle c body1 = handle c body2.
Proof.
  intros H1 H2 Hq1 Hq2 Hlow.
  rewrite (handle_tool c body1 _ H1), (handle_tool c body2 _ H2).
  cbn [switch_cases String.eqb Ascii.eqb Bool.eqb].
  unfold tool_search. rewrite Hq1, Hq2. unfold call_toLowerCase.
  now rewrite Hlow.
Qed.

Lemma search_ignores_query_case_witness :
  handle sample_client
    (rpc_request (VNum 1) "tools/call"
       (tool_params "search" (VObj [("query", VStr "SAV")])))
  = handle sample_client
      (simple_request "tools/call"
         (tool_params "search" (VObj [("query", VStr "sav")]))).
Proof.
  exact (search_ignores_query_case sample_client
           (rpc_request (VNum 1) "tools/call"
              (tool_params "search" (VObj [("query", VStr "SAV")])))
           (simple_request "tools/call"
              (tool_params "search" (VObj [("query", VStr "sav")])))
           "SAV" "sav"
           (conj eq_refl eq_refl) (conj eq_refl eq_refl)
           eq_refl eq_refl eq_refl).
Defined.

Lemma filter_all {A} (f : A -> bool) (l : list A) :
  (forall x, f x = true) -> filter f l = l.
Proof.
  intros H. induction l as [|x l IH]; simpl; [reflexivity|].
  now rewrite H, IH.
Qed.

Lemma includes_empty (s : string) : includes s "" = true.
Proof. apply includes_iff. now exists "", s. Qed.

(** X8.  A [search] with the empty string as query returns every listed
    board, in listing order. *)
Theorem search_empty_query_lists_every_board {rt : Runtime}
  (c : TrelloClient) (body : value) (boards : list Board.t) (t : N) :
  calls_tool body "search" ->
  get (toolArguments body) "query" = VStr "" ->
  listBoards c = Resolves t boards ->
  out (handle c body)
  = Done (JSON_stringify (VObj [("results", VArr (map search_entry boards))])).
Proof.
  intros Hcall Hq Hl. rewrite (handle_tool c body _ Hcall).
  cbn [switch_cases String.eqb Ascii.eqb Bool.eqb].
  unfold tool_search. rewrite Hl, Hq. cbn [call_toLowerCase].
  rewrite toLowerCase_empty.
  unfold bind at 1. cbn [await out]. unfold bind at 1. cbn [ret out].
  rewrite filter_all; [reflexivity|].
  intros b. unfold board_matches. now rewrite includes_empty.
Qed.

Lemma search_empty_query_lists_every_board_witness :
  out (handle sample_client
         (rpc_request (VNum 1) "tools/call"
            (tool_params "search" (VObj [("query", VStr "")]))))
  = Done (JSON_stringify
            (VObj [("results", VArr [search_entry sav_client;
                                     search_entry projet_x])])).
Proof.
  exact (search_empty_query_lists_every_board sample_client
           (rpc_request (VNum 1) "tools/call"
              (tool_params "search" (VObj [("query", VStr "")])))
           [sav_client; projet_x] 120 (conj eq_refl eq_refl) eq_refl eq_refl).
Defined.

(** ** The catalog and the switch *)

Lemma lookup_absent (k : string) (props : list (string * value)) :
  ~ In k (map fst props) -> lookup k props = VUndefined.
Proof.
  induction props as [|[k' v] rest IH]; simpl; intros H; [reflexivity|].
  destruct (String.eqb_spec k k') as [->|_]; [exfalso; auto|auto].
Qed.

Lemma calls_await {A} (call : Call) (p : settle A) : calls (await call p) = [call].
Proof. now destruct p. Qed.

Lemma calls_bind_await {A B} (call : Call) (p : settle A) (k : A -> run B) :
  exists rest, calls (bind (await call p) k) = call :: rest.
Proof. destruct p; unfold bind; simpl; eauto. Qed.

(** X9.  The three lists of tools agree: [tools/list] names the same six
    tools, in the same order, as [GET /tools], whose [count] is their
    number; every key a descriptor requires is one of its properties; and
    [tools/call] consults the client for each of these names, while any
    other name ends in the error [Unknown tool: <name>] without a client
    call. *)
Theorem advertised_tools_are_dispatched {rt : Runtime} :
  map (fun d => get d "name") (descriptors tools_list_result)
  = map VStr listed_tools
  /\ get get_tools "tools" = VArr (map VStr listed_tools)
  /\ get get_tools "count"
     = VNum (Z.of_nat (List.length (descriptors tools_list_result)))
  /\ (forall d k, In d (descriptors tools_list_result) ->
                  In k (schema_required d) ->
                  exists s, k = VStr s /\ In s (schema_properties d))
  /\ forall (c : TrelloClient) (body : value) (name : string),
       calls_tool body name ->
       (In name listed_tools -> calls (handle c body) <> [])
       /\ (~ In name listed_tools ->
           handle c body = throw (Error ("Unknown tool: " ++ name))).
Proof.
  split; [reflexivity|]. split; [reflexivity|]. split; [reflexivity|]. split.
  - intros d k Hd Hk. unfold descriptors, tools_list_result in Hd. simpl in Hd.
    repeat (destruct Hd as [<-|Hd];
            [simpl in Hk;
             repeat (destruct Hk as [<-|Hk];
                     [eexists; split; [reflexivity|simpl; tauto]|]);
             contradiction|]).
    contradiction.
  - intros c body name Hcall. rewrite (handle_tool c body _ Hcall). split.
    + intros Hin. simpl in Hin.
      destruct Hin as [<-|[<-|[<-|[<-|[<-|[<-|[]]]]]]];
        cbn [switch_cases String.eqb Ascii.eqb Bool.eqb].
      * unfold tool_search.
        destruct (calls_bind_await (mkCall "listBoards" []) (listBoards c)
                    (fun allBoards =>
                       query <- call_toLowerCase "toolArguments.query"
                                  (get (toolArguments body) "query") ;;
                       ret (JSON_stringify
                              (VObj [("results",
                                      VArr (map search_entry
                                              (filter (board_matches query)
                                                      allBoards)))]))))
          as [rest ->].
        discriminate.
      * unfold tool_fetch, try_catch, bind.
        destruct (getBoardById c (get (toolArguments body) "id")); simpl;
          discriminate.
      * unfold tool_list_boards, try_catch, bind, await_race.
        destruct (listBoards c) as [t bs|t e|];
          try destruct (t <? tool_timeout)%N; simpl; discriminate.
      * unfold tool_get_cards_by_list_id, bind.
        destruct (getCardsByList c _ _); simpl; discriminate.
      * unfold tool_get_lists, bind.
        destruct (getLists c _); simpl; discriminate.
      * unfold tool_create_card, bind.
        destruct (addCard c _ _); simpl; discriminate.
    + intros Hnot. apply switch_cases_default. exact Hnot.
Qed.

(** X10.  The schemas of [get_cards_by_list_id] and [create_card] have no
    [boardId] property, and the handler reads [toolArguments.boardId]: for
    arguments that conform to the advertised schema (an object with no
    other key than the schema's properties) the one client call is made
    with an undefined board id. *)
Theorem schema_conforming_calls_carry_no_board_id {rt : Runtime}
  (c : TrelloClient) (body d : value) (name : string) :
  name = "get_cards_by_list_id" \/ name = "create_card" ->
  In d (descriptors tools_list_result) ->
  get d "name" = VStr name ->
  calls_tool body name ->
  conforms (get (request_params body) "arguments") d ->
  exists call,
    calls (handle c body) = [call] /\ board_argument call = VUndefined.
Proof.
  intros Hname Hd Hdn Hcall [props [Hargs Hkeys]].
  assert (Hb : get (toolArguments body) "boardId" = VUndefined).
  { unfold toolArguments. rewrite Hargs. simpl.
    apply lookup_absent. intros Hin. specialize (Hkeys _ Hin).
    unfold descriptors, tools_list_result in Hd. simpl in Hd.
    destruct Hname as [-> | ->];
      repeat (destruct Hd as [<-|Hd]; [try discriminate Hdn|]);
      try contradiction; simpl in Hkeys; intuition discriminate. }
  rewrite (handle_tool c body _ Hcall).
  destruct Hname as [-> | ->];
    cbn [switch_cases String.eqb Ascii.eqb Bool.eqb].
  - unfold tool_get_cards_by_list_id. rewrite Hb.
    destruct (getCardsByList c VUndefined (get (toolArguments body) "listId"));
      eexists; split; reflexivity.
  - unfold tool_create_card. rewrite Hb.
    destruct (addCard c VUndefined (card_of (toolArguments body)));
      eexists; split; reflexivity.
Qed.

Lemma schema_conforming_calls_carry_no_board_id_witness :
  exists call,
    calls (handle client_with_active_board
             (rpc_request (VNum 1) "tools/call"
                (tool_params "get_cards_by_list_id"
                   (VObj [("listId", VStr "5f8b2c1a3d4e5f6a7b8c9d0f")]))))
    = [call]
    /\ board_argument call = VUndefined.
Proof.
  apply (schema_conforming_calls_carry_no_board_id client_with_active_board
           (rpc_request (VNum 1) "tools/call"
              (tool_params "get_cards_by_list_id"
                 (VObj [("listId", VStr "5f8b2c1a3d4e5f6a7b8c9d0f")])))
           (descriptor "get_cards_by_list_id" ["listId"] ["listId"])
           "get_cards_by_list_id" (or_introl eq_refl)).
  - simpl. tauto.
  - reflexivity.
  - split; reflexivity.
  - exists [("listId", VStr "5f8b2c1a3d4e5f6a7b8c9d0f")].
    split; [reflexivity|]. simpl. tauto.
Defined.

(** X11.  Whatever makes a [fetch] fail, the error it throws is
    [No resource found with ID <id>], with the id as the template literal
    prints it, or, for an id that cannot be converted to a string, the
    [TypeError] of the conversion: the errors of the client (an invalid
    token, a network failure) are never reported, and the error comes only
    after both client calls were made. *)
Theorem fetch_reports_only_not_found {rt : Runtime}
  (c : TrelloClient) (body : value) (error : exn) :
  calls_tool body "fetch" ->
  out (handle c body) = Throw error ->
  error = match to_string (get (toolArguments body) "id") with
          | Some text => Error ("No resource found with ID " ++ text)
          | None => TypeError "Cannot convert object to primitive value"
          end
  /\ List.length (calls (handle c body)) = 2.
Proof.
  intros Hcall. rewrite (handle_tool c body _ Hcall).
  cbn [switch_cases String.eqb Ascii.eqb Bool.eqb].
  unfold tool_fetch, throw_no_resource.
  destruct (to_string (get (toolArguments body) "id")) as [text|] eqn:Hid.
  - rewrite !(@template_converts rt _ _ text Hid).
    remember ("No resource found with ID " ++ text) as message eqn:Hm.
    clear Hm.
    destruct (getBoardById c (get (toolArguments body) "id")) as [t b|t e|]; cbn;
      try discriminate.
    destruct (getLists c (get (toolArguments body) "id")) as [t' [|l ls]|t' e'|];
      cbn; try discriminate; intros H; injection H as <-; split; reflexivity.
  - rewrite !(@template_throws rt _ _ Hid).
    destruct (getBoardById c (get (toolArguments body) "id")) as [t b|t e|]; cbn;
      try discriminate.
    destruct (getLists c (get (toolArguments body) "id")) as [t' [|l ls]|t' e'|];
      cbn; try discriminate; intros H; injection H as <-; split; reflexivity.
Qed.

Lemma fetch_reports_only_not_found_witness :
  Error "invalid token" <> Error "No resource found with ID zz"
  /\ out (handle failing_client
            (rpc_request (VNum 1) "tools/call"
               (tool_params "fetch" (VObj [("id", VStr "zz")]))))
     = Throw (Error "No resource found with ID zz").
Proof.
  split; [discriminate|].
  destruct (out (handle failing_client
                   (rpc_request (VNum 1) "tools/call"
                      (tool_params "fetch" (VObj [("id", VStr "zz")])))))
    as [r|e|s b|] eqn:Ho; try (vm_compute in Ho; discriminate Ho).
  f_equal.
  exact (proj1 (fetch_reports_only_not_found failing_client
                  (rpc_request (VNum 1) "tools/call"
                     (tool_params "fetch" (VObj [("id", VStr "zz")])))
                  e (conj eq_refl eq_refl) Ho)).
Defined.



(** What the serializer writes, on a value with every kind of member: an
    [undefined] property is left out and an [undefined] element is
    [null]. *)
Lemma JSON_stringify_example :
  let q := String dquote "" in
  JSON_stringify
    (VObj [("results", VArr [VNum 12; VNull; VUndefined; VBool true]);
           ("missing", VUndefined);
           ("title", VStr "SAV")])
  = VStr ("{" ++ q ++ "results" ++ q ++ ":[12,null,null,true],"
          ++ q ++ "title" ++ q ++ ":" ++ q ++ "SAV" ++ q ++ "}").
Proof. reflexivity. Qed.




(** ** Client calls per request *)

Lemma calls_bind_le {A B} (m : run A) (k : A -> run B) (n : nat) :
  (forall a, List.length (calls (k a)) <= n) ->
  List.length (calls (bind m k)) <= List.length (calls m) + n.
Proof.
  intros Hk. unfold bind, after.
  destruct (out m); simpl; rewrite ?length_app; try lia.
  specialize (Hk a). lia.
Qed.

Lemma calls_try_catch_le {A} (m : run A) (h : exn -> run A) (n : nat) :
  (forall e, List.length (calls (h e)) <= n) ->
  List.length (calls (try_catch m h)) <= List.length (calls m) + n.
Proof.
  intros Hh. unfold try_catch, after.
  destruct (out m); simpl; rewrite ?length_app; try lia.
  specialize (Hh e). lia.
Qed.

Lemma calls_await_race {A} (call : Call) (p : settle A) (budget : N) (e : exn) :
  calls (await_race call p budget e) = [call].
Proof.
  destruct p as [t a|t e'|]; simpl; try destruct (t <? budget)%N; reflexivity.
Qed.

Lemma calls_bind_await_ret {A B} (call : Call) (p : settle A) (f : A -> B) :
  List.length (calls (bind (await call p) (fun a => ret (f a)))) <= 1.
Proof.
  pose proof (calls_bind_le (await call p) (fun a => ret (f a)) 0) as H.
  rewrite calls_await in H. simpl in H. apply H. intros a. simpl. lia.
Qed.

Lemma calls_template {rt : Runtime} (prefix : string) (v : value) :
  calls (template prefix v) = [].
Proof. unfold template. now destruct (to_string v). Qed.

(** A template literal makes no client call. *)
Lemma calls_after_template {rt : Runtime} {A} (prefix : string) (v : value)
      (k : string -> run A) (n : nat) :
  (forall text, List.length (calls (k text)) <= n) ->
  List.length (calls (bind (template prefix v) k)) <= n.
Proof.
  intros Hk. pose proof (calls_bind_le (template prefix v) k n Hk) as H.
  rewrite calls_template in H. exact H.
Qed.

Lemma tools_call_calls {rt : Runtime} (c : TrelloClient) (params : value) :
  List.length (calls (tools_call c params)) <= 2
  /\ (get params "name" <> VStr "fetch" ->
      List.length (calls (tools_call c params)) <= 1).
Proof.
  unfold tools_call.
  set (default := message <- template "Unknown tool: " (get params "name") ;;
                  throw (Error message)).
  assert (Hd : List.length (calls default) <= 0).
  { apply calls_after_template. intros text. simpl. lia. }
  match goal with
  | |- context [switch ?v ?cases default] => set (chosen := switch v cases default)
  end.
  assert (H : List.length (calls chosen) <= 2
              /\ (get params "name" <> VStr "fetch" ->
                  List.length (calls chosen) <= 1)).
  { unfold chosen, switch.
    destruct (get params "name") as [| |b|n|name|l|o]; try (split; intros; lia).
    cbn [switch_cases].
    destruct (String.eqb_spec name "search") as [->|_].
    { assert (List.length (calls (tool_search c (or_else (get params "arguments")
                                                            obj_empty))) <= 1).
      { unfold tool_search.
        pose proof (calls_bind_le
                      (await (mkCall "listBoards" []) (listBoards c))
                      (fun allBoards =>
                         query <- call_toLowerCase "toolArguments.query"
                                    (get (or_else (get params "arguments") obj_empty)
                                         "query") ;;
                         ret (JSON_stringify
                                (VObj [("results",
                                        VArr (map search_entry
                                                (filter (board_matches query)
                                                        allBoards)))]))) 0) as H.
        rewrite calls_await in H. simpl in H. apply H. intros a.
        destruct (get (or_else (get params "arguments") obj_empty) "query");
          simpl; lia. }
      split; intros; lia. }
    destruct (String.eqb_spec name "fetch") as [->|_].
    { split; [|intros H; now contradiction H].
      unfold tool_fetch, throw_no_resource, template.
      destruct (to_string (get (or_else (get params "arguments") obj_empty) "id"));
        unfold try_catch, bind, after;
        destruct (getBoardById c _); simpl; try lia;
        destruct (getLists c _) as [t' [|l ls]|t' e'|]; simpl; lia. }
    destruct (String.eqb_spec name "list_boards") as [->|_].
    { assert (List.length (calls (tool_list_boards c)) <= 1).
      { unfold tool_list_boards, try_catch, bind, after, await_race.
        destruct (listBoards c) as [t bs|t e|];
          try destruct (t <? tool_timeout)%N; simpl; lia. }
      split; intros; lia. }
    destruct (String.eqb_spec name "get_cards_by_list_id") as [->|_].
    { pose proof (calls_bind_await_ret
                    (mkCall "getCardsByList"
                       [get (or_else (get params "arguments") obj_empty) "boardId";
                        get (or_else (get params "arguments") obj_empty) "listId"])
                    (getCardsByList c
                       (get (or_else (get params "arguments") obj_empty) "boardId")
                       (get (or_else (get params "arguments") obj_empty) "listId"))
                    JSON_stringify) as H.
      split; intros; unfold tool_get_cards_by_list_id; lia. }
    destruct (String.eqb_spec name "get_lists") as [->|_].
    { pose proof (calls_bind_await_ret
                    (mkCall "getLists"
                       [get (or_else (get params "arguments") obj_empty) "boardId"])
                    (getLists c
                       (get (or_else (get params "arguments") obj_empty) "boardId"))
                    (fun lists => JSON_stringify (lists_value lists))) as H.
      split; intros; unfold tool_get_lists; lia. }
    destruct (String.eqb_spec name "create_card") as [->|_].
    { pose proof (calls_bind_await_ret
                    (mkCall "addCard"
                       [get (or_else (get params "arguments") obj_empty) "boardId";
                        card_of (or_else (get params "arguments") obj_empty)])
                    (addCard c
                       (get (or_else (get params "arguments") obj_empty) "boardId")
                       (card_of (or_else (get params "arguments") obj_empty)))
                    JSON_stringify) as H.
      split; intros; unfold tool_create_card; lia. }
    split; intros; lia. }
  destruct H as [H2 H1]. split.
  - apply calls_after_template. intros _. exact H2.
  - intros Hn. apply calls_after_template. intros _. exact (H1 Hn).
Qed.

(** Apart from [tools/call], a method makes at most one client call. *)
Lemma direct_method_calls {rt : Runtime} (c : TrelloClient) (body : value) :
  get body "method" <> VStr "tools/call" ->
  List.length (calls (handle c body)) <= 1.
Proof.
  intros Hm. unfold handle. apply calls_after_template. intros _.
  destruct (negb (truthy (get body "method"))); [simpl; lia|].
  match goal with
  | |- List.length (calls (bind ?m ?k)) <= 1 =>
      pose proof (calls_bind_le m k 0) as Hb;
      assert (Hs : List.length (calls m) <= 1); [|assert (Hk : forall a, List.length (calls (k a)) <= 0)]
  end.
  - assert (Hd : List.length (calls (respond_unknown_method (get body "method"))) <= 1).
    { unfold respond_unknown_method. apply calls_after_template.
      intros text. simpl. lia. }
    unfold switch.
    destruct (get body "method") as [| |b|n|m|l|o]; try exact Hd.
    cbn [switch_cases app].
    destruct (String.eqb_spec m "initialize"); [simpl; lia|].
    destruct (String.eqb_spec m "tools/list"); [simpl; lia|].
    destruct (String.eqb_spec m "tools/call") as [->|_]; [now contradiction Hm|].
    apply (switch_cases_all (fun r => List.length (calls r) <= 1));
      [|exact Hd].
    apply Forall_app. split; [|repeat constructor; simpl; lia].
    unfold legacy_cases.
    repeat (apply Forall_cons || apply Forall_nil); simpl;
      try (unfold forward; rewrite ?calls_await; simpl; lia);
      try apply calls_bind_await_ret.
    destruct (negb (truthy (activeBoardId c))); [simpl; lia|].
    apply calls_bind_await_ret.
  - intros a. apply calls_after_template. intros _. simpl. lia.
  - specialize (Hb Hk). lia.
Qed.

(** X13.  One request makes at most two calls on the Trello client, and at
    most one unless it is a [tools/call] of [fetch]. *)
Theorem at_most_two_client_calls {rt : Runtime} (c : TrelloClient) (body : value) :
  List.length (calls (handle c body)) <= 2
  /\ (~ calls_tool body "fetch" -> List.length (calls (handle c body)) <= 1).
Proof.
  assert (H : get body "method" = VStr "tools/call"
              \/ List.length (calls (handle c body)) <= 1).
  { destruct (get body "method") as [| |b|n|m|l|o] eqn:Hm;
      try (right; apply direct_method_calls; rewrite Hm; discriminate).
    destruct (String.eqb_spec m "tools/call") as [->|Hne]; [now left|].
    right. apply direct_method_calls. rewrite Hm. congruence. }
  destruct H as [Hm|H]; [|split; intros; lia].
  rewrite (handle_tools_call c body Hm).
  destruct (tools_call_calls c (request_params body)) as [H2 H1].
  split; [exact H2|]. intros Hnot. apply H1. intros Hn. apply Hnot.
  split; [exact Hm|exact Hn].
Qed.

Lemma at_most_two_client_calls_witness :
  List.length
    (calls (handle sample_client
              (rpc_request (VNum 1) "tools/call"
                 (tool_params "get_lists" obj_empty)))) <= 1.
Proof.
  apply (proj2 (at_most_two_client_calls sample_client
                  (rpc_request (VNum 1) "tools/call"
                     (tool_params "get_lists" obj_empty)))).
  intros [_ H]. discriminate H.
Defined.

(** ** The protocol methods *)

(** X14.  [notifications/initialized] is acknowledged with status 200 and
    the empty object, whatever the format, the id and the params of the
    request: no [jsonrpc], [id], [result] or [error] field, and no client
    call. *)
Theorem notification_gets_empty_acknowledgement {rt : Runtime}
  (c : TrelloClient) (body : value) :
  get body "method" = VStr "notifications/initialized" ->
  sent (post_mcp c body) = [(200, obj_empty)]
  /\ calls (handle c body) = []
  /\ forall k, ~ has_field obj_empty k.
Proof.
  intros Hm.
  assert (Hh : handle c body = respond 200 obj_empty).
  { rewrite (handle_legacy c body _ Hm); [reflexivity|discriminate]. }
  split; [|split].
  - rewrite (post_mcp_respond c body 200 obj_empty); rewrite ?Hh; reflexivity.
  - now rewrite Hh.
  - intros k H. now apply H.
Qed.

Lemma notification_gets_empty_acknowledgement_witness :
  sent (post_mcp silent_client
          (rpc_request (VNum 9) "notifications/initialized" obj_empty))
  = [(200, obj_empty)].
Proof.
  exact (proj1 (notification_gets_empty_acknowledgement silent_client
                  (rpc_request (VNum 9) "notifications/initialized" obj_empty)
                  eq_refl)).
Defined.

(** X15.  [GET /mcp] returns what a JSON-RPC [initialize] request with a
    null id is answered: the same envelope, whatever the params and the
    client, and [initialize] makes no client call. *)
Theorem discovery_is_the_initialize_answer {rt : Runtime}
  (c : TrelloClient) (body : value) :
  get body "method" = VStr "initialize" ->
  truthy (get body "jsonrpc") = true ->
  get body "id" = VNull ->
  sent (post_mcp c body) = [(200, get_mcp)]
  /\ calls (handle c body) = [].
Proof.
  intros Hm Hj Hid.
  assert (Hh : handle c body = ret initialize_result).
  { rewrite (handle_legacy c body _ Hm); [reflexivity|discriminate]. }
  split; [|now rewrite Hh].
  rewrite (post_mcp_done c body initialize_result); rewrite ?Hh;
    try reflexivity.
  unfold success_body, request_id. rewrite Hj, Hid. reflexivity.
Qed.

Lemma discovery_is_the_initialize_answer_witness :
  sent (post_mcp silent_client (rpc_request VNull "initialize" obj_empty))
  = [(200, get_mcp)].
Proof.
  exact (proj1 (discovery_is_the_initialize_answer silent_client
                  (rpc_request VNull "initialize" obj_empty)
                  eq_refl eq_refl eq_refl)).
Defined.

(** ** The earlier server *)

Lemma read_defined {rt : Runtime} (v : value) (k : string) :
  v <> VUndefined -> v <> VNull -> Simple.read v k = ret (get v k).
Proof. destruct v; intros H1 H2; try reflexivity; contradiction. Qed.

Lemma reads_defined {rt : Runtime} (v : value) (keys : list string) :
  v <> VUndefined -> v <> VNull ->
  Simple.reads v keys = ret (map (get v) keys).
Proof.
  intros H1 H2. induction keys as [|k keys IH]; simpl; [reflexivity|].
  rewrite (read_defined v k H1 H2), bind_ret_l, IH, bind_ret_l. reflexivity.
Qed.

Lemma method_cases_defined {rt : Runtime} (c : TrelloClient) (params : value) :
  params <> VUndefined -> params <> VNull ->
  Simple.method_cases c params = legacy_cases c params.
Proof.
  intros H1 H2. unfold Simple.method_cases, Simple.forward_reading, legacy_cases.
  rewrite !(reads_defined params _ H1 H2).
  rewrite !(read_defined params _ H1 H2).
  rewrite !bind_ret_l.
  reflexivity.
Qed.

Lemma switch_cases_skip {A} (s : string) (pre l : list (string * A)) (d : A) :
  ~ In s (map fst pre) ->
  switch_cases s (pre ++ l)%list d = switch_cases s l d.
Proof.
  induction pre as [|[k x] pre IH]; simpl; intros H; [reflexivity|].
  destruct (String.eqb_spec s k) as [->|_]; [exfalso; auto|auto].
Qed.

Lemma switch_cases_found {A} (s : string) (l post : list (string * A)) (d : A) :
  In s (map fst l) ->
  switch_cases s (l ++ post)%list d = switch_cases s l d.
Proof.
  induction l as [|[k x] l IH]; simpl; intros H; [contradiction|].
  destruct (String.eqb_spec s k) as [->|Hne]; [reflexivity|].
  apply IH. destruct H as [H|H]; [congruence|exact H].
Qed.

Lemma legacy_names_are_labels (c : TrelloClient) (params : value) :
  map fst (legacy_cases c params) = legacy_names.
Proof. reflexivity. Qed.

Lemma legacy_names_apart (m : string) :
  In m legacy_names ->
  m <> "" /\ ~ In m ["initialize"; "tools/list"; "tools/call"].
Proof.
  intros Hin.
  assert (H : forallb (fun x => negb (String.eqb x "")
                                && negb (existsb (String.eqb x)
                                           ["initialize"; "tools/list";
                                            "tools/call"]))
                      legacy_names = true) by reflexivity.
  rewrite forallb_forall in H. specialize (H m Hin).
  apply andb_true_iff in H. destruct H as [H1 H2].
  split.
  - intros ->. discriminate H1.
  - intros Hmeta. apply negb_true_iff in H2.
    assert (existsb (String.eqb m) ["initialize"; "tools/list"; "tools/call"]
            = true).
    { apply existsb_exists. exists m. split; [exact Hmeta|apply String.eqb_refl]. }
    congruence.
Qed.

(** X16.  The server with [tools/call] serves the direct methods as the
    earlier server did: for every direct method and a body with [params],
    the two handlers run alike (same client call, same result or failure),
    and for a request without a [jsonrpc] field that ends before the timer
    the two servers send the same response. *)
Theorem direct_methods_served_as_before {rt : Runtime}
  (c : TrelloClient) (body : value) (m : string) :
  get body "method" = VStr m ->
  In m legacy_names ->
  truthy (get body "params") = true ->
  handle c body = Simple.handle c body
  /\ (truthy (get body "jsonrpc") = false ->
      (elapsed (handle c body) < request_timeout)%N ->
      out (handle c body) <> Hang ->
      post_mcp c body = Simple.post_mcp c body).
Proof.
  intros Hm Hin Hp.
  destruct (legacy_names_apart m Hin) as [Hne Hmeta].
  assert (Hh : handle c body = Simple.handle c body).
  { rewrite (handle_legacy c body m Hm Hne).
    unfold Simple.handle. rewrite Hm. simpl truthy.
    destruct (String.eqb_spec m "") as [->|_]; [contradiction|].
    simpl negb. cbv iota. unfold switch.
    unfold request_params, or_else. rewrite Hp.
    rewrite method_cases_defined;
      [|intros E; rewrite E in Hp; discriminate
       |intros E; rewrite E in Hp; discriminate].
    rewrite switch_cases_skip; [|exact Hmeta].
    apply switch_cases_found. now rewrite legacy_names_are_labels. }
  split; [exact Hh|].
  intros Hj Ht Hhang. unfold Simple.post_mcp. rewrite <- Hh.
  destruct (out (handle c body)) as [result|error|s b|] eqn:Ho.
  - rewrite (post_mcp_done c body result Ho Ht).
    unfold success_body. rewrite Hj. reflexivity.
  - rewrite (post_mcp_throw c body error Ho Ht).
    unfold error_body. rewrite Hj. reflexivity.
  - rewrite (post_mcp_respond c body s b Ho Ht). reflexivity.
  - contradiction.
Qed.

Lemma direct_methods_served_as_before_witness :
  handle sample_client
    (simple_request "get_lists" (VObj [("boardId", VStr "abc")]))
  = Simple.handle sample_client
      (simple_request "get_lists" (VObj [("boardId", VStr "abc")])).
Proof.
  apply (direct_methods_served_as_before sample_client
           (simple_request "get_lists" (VObj [("boardId", VStr "abc")]))
           "get_lists" eq_refl).
  - simpl. tauto.
  - reflexivity.
Defined.

Lemma first_read_methods :
  map fst Simple.first_read
  = filter (fun m => negb (existsb (String.eqb m)
                             ["get_my_cards"; "list_boards"; "list_workspaces";
                              "create_board"; "get_active_board_info"]))
           legacy_names.
Proof. reflexivity. Qed.

(** X17.  A direct method that reads its arguments from [params], sent
    without [params]: the earlier server fails with the type error of
    reading the first of these properties of [undefined], before any
    client call, and answers 500 with that message; the server with
    [tools/call] takes [{}] for the missing [params] and makes exactly one
    client call, in which every argument read from [params] is
    [undefined] (the only other argument is the empty [params] object
    itself, which [add_card_to_list] and [update_card_details] pass as
    their second argument). *)
Theorem missing_params_earlier_and_later {rt : Runtime}
  (c : TrelloClient) (body : value) (m k : string) :
  get body "method" = VStr m ->
  In (m, k) Simple.first_read ->
  get body "params" = VUndefined ->
  let message := "Cannot read properties of undefined (reading '"
                 ++ k ++ "')" in
  Simple.handle c body = throw (TypeError message)
  /\ calls (Simple.handle c body) = []
  /\ sent (Simple.post_mcp c body) = [(500, VObj [("error", VStr message)])]
  /\ exists call,
       calls (handle c body) = [call]
       /\ (args call = repeat VUndefined (List.length (args call))
           \/ ((m = "add_card_to_list" \/ m = "update_card_details")
               /\ args call = [VUndefined; obj_empty])).
Proof.
  intros Hm Hin Hp message. unfold message. clear message.
  assert (Hne : m <> "").
  { intros ->. simpl in Hin. intuition discriminate. }
  split; [|split; [|split]].
  - unfold Simple.handle. rewrite Hm, Hp. simpl in Hin.
    repeat (destruct Hin as [Hin|Hin];
            [injection Hin as <- <-; reflexivity|]).
    contradiction.
  - unfold Simple.handle. rewrite Hm, Hp. simpl in Hin.
    repeat (destruct Hin as [Hin|Hin];
            [injection Hin as <- <-; reflexivity|]).
    contradiction.
  - unfold Simple.post_mcp, Simple.handle. rewrite Hm, Hp. simpl in Hin.
    repeat (destruct Hin as [Hin|Hin];
            [injection Hin as <- <-; reflexivity|]).
    contradiction.
  - rewrite (handle_legacy c body m Hm Hne).
    unfold request_params. rewrite Hp. simpl in Hin.
    repeat (destruct Hin as [Hin|Hin];
            [injection Hin as <- <-;
             cbn; unfold forward; rewrite ?calls_await;
             try (eexists; split; [reflexivity|]; simpl; tauto);
             match goal with
             | |- context [getLists ?c ?b] => destruct (getLists c b)
             end; eexists; split; try reflexivity; simpl; tauto|]).
    contradiction.
Qed.

Lemma missing_params_earlier_and_later_witness :
  sent (Simple.post_mcp sample_client (VObj [("method", VStr "get_lists")]))
  = [(500, VObj [("error",
                  VStr "Cannot read properties of undefined (reading 'boardId')")])]
  /\ exists call,
       calls (handle sample_client (VObj [("method", VStr "get_lists")])) = [call]
       /\ (args call = repeat VUndefined (List.length (args call))
           \/ (("get_lists" = "add_card_to_list" \/ "get_lists" = "update_card_details")
               /\ args call = [VUndefined; obj_empty])).
Proof.
  refine (proj2 (proj2 (missing_params_earlier_and_later sample_client
                          (VObj [("method", VStr "get_lists")])
                          "get_lists" "boardId" eq_refl _ eq_refl))).
  simpl. tauto.
Defined.

(** ** The keep-alive stream *)

Section SseFacts.

Import Sse.

Lemma closed_stays_closed (inputs : list input) (s : state) :
  keepAlive s = None ->
  written (fold_left step inputs s) = written s
  /\ keepAlive (fold_left step inputs s) = None.
Proof.
  revert s. induction inputs as [|i inputs IH]; intros s Hk; simpl; [auto|].
  assert (Hs : keepAlive (step s i) = None /\ written (step s i) = written s).
  { destruct i as [d|]; simpl; unfold wait; rewrite ?Hk; auto. }
  destruct Hs as [Hk' Hw']. destruct (IH (step s i) Hk') as [H1 H2].
  split; [congruence|exact H2].
Qed.

Lemma pings_append (a n : N) :
  (repeat ping_event (N.to_nat a) ++ repeat ping_event (N.to_nat n))%list
  = repeat ping_event (N.to_nat (a + n)).
Proof. rewrite N2Nat.inj_add. symmetry. apply repeat_app. Qed.

Lemma open_stream (t0 : N) (inputs : list input) (s : state) (T : N) :
  keepAlive s = Some (t0 + (T / period + 1) * period)%N ->
  now s = (t0 + T)%N ->
  written s = connection_event :: repeat ping_event (N.to_nat (T / period)) ->
  written (fold_left step inputs s)
  = connection_event
      :: repeat ping_event (N.to_nat ((T + open_time inputs) / period)).
Proof.
  revert s T. induction inputs as [|i inputs IH]; intros s T Hk Hn Hw.
  - simpl. now rewrite N.add_0_r.
  - destruct i as [d|]; simpl.
    + rewrite N.add_assoc. apply IH; unfold wait; rewrite Hk, Hn;
        destruct (N.leb_spec (t0 + (T / period + 1) * period) (t0 + T + d))
          as [Hdue|Hdue]; simpl.
      * f_equal. unfold period in *. zify. Z.div_mod_to_equations. lia.
      * f_equal. unfold period in *. zify. Z.div_mod_to_equations. lia.
      * lia.
      * lia.
      * rewrite Hw. simpl. f_equal. rewrite pings_append. f_equal. f_equal.
        unfold period in *. zify. Z.div_mod_to_equations. lia.
      * rewrite Hw. f_equal. f_equal. f_equal.
        unfold period in *. zify. Z.div_mod_to_equations. lia.
    + rewrite N.add_0_r.
      destruct (closed_stays_closed inputs (close s) eq_refl) as [-> _].
      exact Hw.
Qed.

(** X18.  The stream of [GET /sse] consists of the connection event
    followed by one ping for every full thirty seconds that passed while
    the connection was open; nothing is written once the peer has
    closed. *)
Theorem stream_is_connection_then_pings (t0 : N) (inputs : list input) :
  written (run t0 inputs)
  = connection_event
      :: repeat ping_event (N.to_nat (open_time inputs / period))
  /\ forall later,
       written (run t0 (inputs ++ Close :: later)) = written (run t0 inputs).
Proof.
  split.
  - unfold run.
    apply (open_stream t0 inputs (open t0) 0);
      [reflexivity | simpl; lia | reflexivity].
  - intros later. unfold run. rewrite fold_left_app. simpl.
    now destruct (closed_stays_closed later
                    (close (fold_left step inputs (open t0))) eq_refl).
Qed.

End SseFacts.
